(** * blockchain-predictor: dataset assembly, labelling and scoring

    A shallow embedding of [dataset_generator.py] (label generation,
    length reconciliation, shuffling, ratio split) and of the scoring
    functions of [neural/neural_network.py], with the properties of the
    specification proved, or refuted, against it.

    Conventions of the embedding:
    - a Python call either returns or raises: [outcome];
    - a one-dimensional array, list or DataFrame column is a [list],
      indexed from 0; an index past the end raises [IndexError];
    - dates are integer timestamps ([Z]);
    - prices, labels and predictions of the scoring functions are exact
      rationals ([Qc]); rounding of machine floats is not modelled. *)

From Stdlib Require Import String Bool ZArith Lia List Permutation.
From Stdlib Require Import QArith Qcanon Qcabs.
Import ListNotations.

Local Open Scope string_scope.
Local Open Scope list_scope.
Local Open Scope Z_scope.

(** ** Python outcomes *)

Inductive exn : Set :=
| IndexError
| ZeroDivisionError
| TypeError
| ValueError
| OverflowError
| AttributeError.

Inductive outcome (A : Type) : Type :=
| Returned (a : A)
| Raised (e : exn).

Arguments Returned {A} a.
Arguments Raised {A} e.

Definition bind {A B : Type} (c : outcome A) (k : A -> outcome B) : outcome B :=
  match c with
  | Returned a => k a
  | Raised e => Raised e
  end.

Notation "x <- c ;; k" := (bind c (fun x => k))
  (at level 61, c at next level, right associativity).

(** ** Python sequences *)

(** [l[i]] for a non-negative position. *)
Definition py_index {A : Type} (l : list A) (i : nat) : outcome A :=
  match nth_error l i with
  | Some x => Returned x
  | None => Raised IndexError
  end.

(** A bound of a slice, clamped the way Python does: a negative bound
    counts from the end, and every bound is brought into [0, len]. *)
Definition py_bound (len : nat) (b : Z) : nat :=
  if b <? 0 then Z.to_nat (Z.max 0 (b + Z.of_nat len))
  else Z.to_nat (Z.min b (Z.of_nat len)).

(** [l[start:stop]]; [stop = None] is the open end of [l[start:]]. *)
Definition py_slice {A : Type} (l : list A) (start : Z) (stop : option Z) : list A :=
  let lo := py_bound (length l) start in
  let hi := match stop with
            | Some e => py_bound (length l) e
            | None => length l
            end in
  firstn (hi - lo) (skipn lo l).

(** ** Data model *)

Definition Date := Z.

(** A row of the price series loaded for [labelKey]. *)
Record Tick : Set := { date : Date; closePrice : Qc }.

Definition Qcltb (x y : Qc) : bool :=
  match (x ?= y)%Qc with
  | Lt => true
  | _ => false
  end.

(** The label container: in boolean mode an array with one row [[label]]
    per date, in full mode the targets of the dataset model. *)
Inductive Labels (Target : Type) : Type :=
| BoolLabels (rows : list (list bool))
| FullLabels (targets : list Target).

Arguments BoolLabels {Target} rows.
Arguments FullLabels {Target} targets.

Definition labels_len {Target : Type} (l : Labels Target) : nat :=
  match l with
  | BoolLabels rows => length rows
  | FullLabels targets => length targets
  end.

(** ** generateLabels *)

(** [while ticks.get_value(indices[i], 'date') != date: i += 1], entered
    with the cursor at [i] and [rest] the ticks from position [i] on.
    The loop sits outside the [try]: running off the end of [indices]
    raises [IndexError] out of [generateLabels]. *)
Fixpoint advance (rest : list Tick) (i : nat) (d : Date) : outcome nat :=
  match rest with
  | [] => Raised IndexError
  | t :: rest' => if date t =? d then Returned i else advance rest' (S i) d
  end.

(** How the [for date in dates] loop ends: it runs through all dates
    (leaving the cursor at [i]) or it leaves through [break]. *)
Inductive loop_end : Set :=
| Completed (i : nat) (labels : list (list bool))
| Broke (labels : list (list bool)).

(** The body of the [for] loop.  The [try] covers the two price lookups
    only; an [IndexError] there takes the [except] branch. *)
Fixpoint label_loop (ticks : list Tick) (dates : list Date) (i : nat)
    (labels : list (list bool)) : outcome loop_end :=
  match dates with
  | [] => Returned (Completed i labels)
  | d :: dates' =>
      j <- advance (skipn i ticks) i d ;;
      match nth_error ticks j, nth_error ticks (S j) with
      | Some curr, Some next =>
          let label := Qcltb (closePrice curr) (closePrice next) in
          label_loop ticks dates' j (labels ++ [[label]])
      | _, _ => Returned (Broke labels)
      end
  end.

Section Labeler.

Variable Target : Type.

(** A Python function that falls off its end returns [None]. *)
Definition generateLabels (dates : list Date) (nextPrices : list Target)
    (ticks : list Tick) (labelsType : string)
  : outcome (option (Labels Target * list Date)) :=
  if String.eqb labelsType "boolean" then
    r <- label_loop ticks dates 0 [] ;;
    match r with
    | Completed _ labels => Returned (Some (BoolLabels labels, dates))
    | Broke labels =>
        Returned (Some (BoolLabels labels,
                        py_slice dates 0 (Some (Z.of_nat (length labels)))))
    end
  else if String.eqb labelsType "full" then
    Returned (Some (FullLabels nextPrices, dates))
  else Returned None.

End Labeler.

Arguments generateLabels {Target} dates nextPrices ticks labelsType.

(** ** The property store and the dataset models

    [database_tools] and the modules of the [dataset_models] directory
    are collaborators of [dataset_generator.py]; what [generateDataset]
    needs of them is taken from the specification. *)

(** A value of a property column: a number, a string (an encoded
    payload) or a decoded array. *)
Inductive Value : Set :=
| Num (x : Qc)
| Str (s : string)
| Arr (a : list Qc).

(** A loaded property: rows of (date, value). *)
Definition Frame := list (Date * Value).

(** Modelled from the spec: the chunk store behind [database_tools],
    that is the series of each named property, the [labelKey] column
    ('closePrice') read as numbers, and the master-interval query
    [masterInterval(properties, start, end) -> (start, end)]. *)
Record ChunkStore : Type := {
  series : string -> Frame;
  prices : list Tick;
  getMasterInterval :
    list string -> option Date -> option Date -> option Date * option Date
}.

(** Membership of a date in [[start, end)]; an absent bound is open. *)
Definition in_interval (start end_ : option Date) (d : Date) : bool :=
  match start with
  | Some s => s <=? d
  | None => true
  end
  &&
  match end_ with
  | Some e => d <? e
  | None => true
  end.

(** Modelled from the spec: [db.loadData], the store's
    [load(property, start, end, dense, boundaryMode)], which yields the
    ordered rows of the series over the closed-open interval
    [[start, end)]. *)
Definition loadData {R : Type} (date_of : R -> Date) (rows : list R)
    (start end_ : option Date) : list R :=
  filter (fun r => in_interval start end_ (date_of r)) rows.

(** Modelled from the spec: a dataset model ([MatrixModel],
    [StackedModel]), that is its name and its pure [generate], from the
    aligned properties to (feature matrices, dates, auxiliary
    targets). *)
Record DatasetModel (Feature Target : Type) : Type := {
  name : string;
  generate : list Frame -> list Feature * list Date * list Target
}.

Arguments name {Feature Target} d.
Arguments generate {Feature Target} d properties.

(** What [generateDataset] prints before it returns [None]. *)
Inductive Report : Set :=
| CouldntFindModel (modelName : string)
| LengthMismatch.

Inductive Generated (Feature Target : Type) : Type :=
| Dataset (dataset : list Feature) (labels : Labels Target) (dates : list Date)
| NoDataset (r : Report).

Arguments Dataset {Feature Target} dataset labels dates.
Arguments NoDataset {Feature Target} r.

Fixpoint mapM {A B : Type} (f : A -> outcome B) (l : list A) : outcome (list B) :=
  match l with
  | [] => Returned []
  | x :: l' => y <- f x ;; ys <- mapM f l' ;; Returned (y :: ys)
  end.

(** ** generateDataset *)

Section Assembler.

Variables Feature Target : Type.

(** [pickle.loads(codecs.decode(x.encode(), "base64"))] *)
Variable unpickle : string -> outcome Value.

(** [for mod in models: if mod.name == modelName: model = mod]; the
    loop has no [break]. *)
Fixpoint select_model (models : list (DatasetModel Feature Target))
    (modelName : string) (model : option (DatasetModel Feature Target))
  : option (DatasetModel Feature Target) :=
  match models with
  | [] => model
  | mod_ :: rest =>
      select_model rest modelName
        (if String.eqb (name mod_) modelName then Some mod_ else model)
  end.

(** The lambda applied to every value of an encoded column;
    [x.encode()] exists on strings only. *)
Definition decode_row (r : Date * Value) : outcome (Date * Value) :=
  match snd r with
  | Str s => v <- unpickle s ;; Returned (fst r, v)
  | _ => Raised AttributeError
  end.

(** One round of the loading loop; [data.iloc[0]] raises on an empty
    frame. *)
Definition load_property (store : ChunkStore) (start end_ : option Date)
    (prop : string) : outcome Frame :=
  let data := loadData fst (series store prop) start end_ in
  first <- py_index data 0 ;;
  match snd first with
  | Str _ => mapM decode_row data
  | _ => Returned data
  end.

Definition same_lengths (properties : list Frame) : bool :=
  match properties with
  | [] => true
  | p0 :: _ => forallb (fun p => Nat.eqb (length p0) (length p)) properties
  end.

Definition generateDataset (models : list (DatasetModel Feature Target))
    (store : ChunkStore) (modelName : string) (propertyNames : list string)
    (labelsType : string) (start end_ : option Date)
  : outcome (Generated Feature Target) :=
  match select_model models modelName None with
  | None => Returned (NoDataset (CouldntFindModel modelName))
  | Some model =>
      let '(start, end_) := getMasterInterval store propertyNames start end_ in
      properties <- mapM (load_property store start end_) propertyNames ;;
      if negb (same_lengths properties) then Returned (NoDataset LengthMismatch)
      else
        let '(dataset, dates, nextPrices) := generate model properties in
        r <- generateLabels dates nextPrices
               (loadData date (prices store) start None) labelsType ;;
        match r with
        | None => Raised TypeError
        | Some (labels, dates) =>
            let dataset :=
              if negb (Nat.eqb (length dataset) (labels_len labels))
              then py_slice dataset 0 (Some (Z.of_nat (labels_len labels)))
              else dataset in
            Returned (Dataset dataset labels dates)
        end
  end.

End Assembler.

Arguments select_model {Feature Target} models modelName model.
Arguments generateDataset {Feature Target} unpickle models store modelName
  propertyNames labelsType start end_.

(** ** randomizeDataset *)

(** [a[permutation]]: the rows of [a] at the listed positions. *)
Definition take_indices {A : Type} (a : list A) (permutation : list nat)
  : outcome (list A) :=
  mapM (py_index a) permutation.

Definition labels_take {Target : Type} (labels : Labels Target)
    (permutation : list nat) : outcome (Labels Target) :=
  match labels with
  | BoolLabels rows => r <- take_indices rows permutation ;; Returned (BoolLabels r)
  | FullLabels targets =>
      t <- take_indices targets permutation ;; Returned (FullLabels t)
  end.

Section Shuffle.

Variables Feature Target : Type.

(** The draw of [np.random.permutation]: for [n], an arrangement of
    [0 .. n-1]. *)
Variable np_random_permutation : nat -> list nat.

Definition randomizeDataset (dataset : list Feature) (labels : Labels Target)
    (dates : list Date)
  : outcome (list Feature * Labels Target * list Date) :=
  let permutation := np_random_permutation (labels_len labels) in
  shuffled_dataset <- take_indices dataset permutation ;;
  shuffled_labels <- labels_take labels permutation ;;
  shuffled_dates <- take_indices dates permutation ;;
  Returned (shuffled_dataset, shuffled_labels, shuffled_dates).

End Shuffle.

Arguments randomizeDataset {Feature Target} np_random_permutation
  dataset labels dates.

(** ** The ratio split of [run] *)

(** One saved dictionary [{'dataset': .., 'labels': .., 'dates': ..}]. *)
Record Fragment (Feature Target : Type) : Type := {
  frag_dataset : list Feature;
  frag_labels : Labels Target;
  frag_dates : list Date
}.

Arguments Build_Fragment {Feature Target} frag_dataset frag_labels frag_dates.
Arguments frag_dataset {Feature Target} f.
Arguments frag_labels {Feature Target} f.
Arguments frag_dates {Feature Target} f.

(** What [run] hands to [saveDataset]: one dictionary, or a list of
    them. *)
Inductive Saved (Feature Target : Type) : Type :=
| Whole (d : Fragment Feature Target)
| Pieces (l : list (Fragment Feature Target)).

Arguments Whole {Feature Target} d.
Arguments Pieces {Feature Target} l.

Definition labels_slice {Target : Type} (labels : Labels Target)
    (start : Z) (stop : option Z) : Labels Target :=
  match labels with
  | BoolLabels rows => BoolLabels (py_slice rows start stop)
  | FullLabels targets => FullLabels (py_slice targets start stop)
  end.

Definition np_sum (ratio : list Z) : Z := fold_left Z.add ratio 0.

(** [int((rat * len(dataset)) / np.sum(ratio))]: a true division, then a
    truncation towards zero.  Dividing by a zero sum gives an infinity
    or a NaN, which [int] refuses. *)
Definition split_length (rat len total : Z) : outcome Z :=
  if total =? 0 then
    if rat * len =? 0 then Raised ValueError else Raised OverflowError
  else Returned (Z.quot (rat * len) total).

Section Split.

Variables Feature Target : Type.

(** [for i, spl in enumerate(split)]: the last round, and only it,
    leaves the end of the slice open. *)
Fixpoint split_loop (split : list Z) (index : Z) (dataset : list Feature)
    (labels : Labels Target) (dates : list Date)
  : list (Fragment Feature Target) :=
  match split with
  | [] => []
  | spl :: rest =>
      let end_ := match rest with
                  | [] => None
                  | _ :: _ => Some (spl + index)
                  end in
      Build_Fragment (py_slice dataset index end_)
                     (labels_slice labels index end_)
                     (py_slice dates index end_)
      :: split_loop rest (index + spl) dataset labels dates
  end.

(** Lines 149 to 174 of [run], from the parsed ratio on. *)
Definition split_data (ratio : list Z) (dataset : list Feature)
    (labels : Labels Target) (dates : list Date)
  : outcome (Saved Feature Target) :=
  if Nat.eqb (length ratio) 1 then
    Returned (Whole (Build_Fragment dataset labels dates))
  else
    split <- mapM (fun rat =>
               split_length rat (Z.of_nat (length dataset)) (np_sum ratio))
             ratio ;;
    Returned (Pieces (split_loop split 0 dataset labels dates)).

(** [run] between the parsing of its arguments and the saving of its
    result.  Unpacking the [None] of a failed generation raises. *)
Definition run (unpickle : string -> outcome Value)
    (np_random_permutation : nat -> list nat)
    (models : list (DatasetModel Feature Target)) (store : ChunkStore)
    (model : string) (properties : list string) (start end_ : option Date)
    (labels : string) (ratio : list Z) (shuffle : bool)
  : outcome (Saved Feature Target) :=
  g <- generateDataset unpickle models store model properties labels start end_ ;;
  match g with
  | NoDataset _ => Raised TypeError
  | Dataset dataset labels dates =>
      s <- (if shuffle
            then randomizeDataset np_random_permutation dataset labels dates
            else Returned (dataset, labels, dates)) ;;
      let '(dataset, labels, dates) := s in
      split_data ratio dataset labels dates
  end.

End Split.

Arguments split_loop {Feature Target} split index dataset labels dates.
Arguments split_data {Feature Target} ratio dataset labels dates.
Arguments run {Feature Target} unpickle np_random_permutation models store
  model properties start end_ labels ratio shuffle.

(** ** Scoring functions of [NeuralNetwork] *)

Local Open Scope Qc_scope.

Definition half : Qc := Q2Qc (1 # 2).

Definition Qc_of_nat (n : nat) : Qc := Q2Qc (inject_Z (Z.of_nat n)).

Definition Qcleb (x y : Qc) : bool := negb (Qcltb y x).

(** [min(a, b)] of Python: [b] when [b < a], otherwise [a]. *)
Definition py_min (a b : Qc) : Qc := if Qcltb b a then b else a.

(** [x / n]; a zero divisor raises. *)
Definition py_div (x n : Qc) : outcome Qc :=
  if Qc_eq_bool n 0 then Raised ZeroDivisionError else Returned (x / n).

(** The loop of [sign_accuracy] over [range(len(labels))]. *)
Fixpoint sign_loop (labels prediction : list Qc) (range : list nat)
    (correct_signs : Qc) : outcome Qc :=
  match range with
  | [] => Returned correct_signs
  | i :: range' =>
      l <- py_index labels i ;;
      p <- py_index prediction i ;;
      sign_loop labels prediction range'
        (if (Qcleb half l && Qcleb half p) || (Qcltb l half && Qcltb p half)
         then correct_signs + 1 else correct_signs)
  end.

Definition sign_accuracy (labels prediction : list Qc) : outcome Qc :=
  correct_signs <- sign_loop labels prediction (seq 0 (length labels)) 0 ;;
  py_div correct_signs (Qc_of_nat (length labels)).

(** The loop of [custom_accuracy]. *)
Fixpoint custom_loop (labels prediction : list Qc) (range : list nat)
    (total : Qc) : outcome Qc :=
  match range with
  | [] => Returned total
  | i :: range' =>
      p <- py_index prediction i ;;
      l <- py_index labels i ;;
      let minDel := py_min p l in
      custom_loop labels prediction range'
        (if negb (Qc_eq_bool minDel 0)
         then total + Qcabs (l - p) / minDel else total)
  end.

Definition custom_accuracy (labels prediction : list Qc) : outcome Qc :=
  total <- custom_loop labels prediction (seq 0 (length labels)) 0 ;;
  py_div total (Qc_of_nat (length labels)).

(** The loop of [R2], with its two running sums. *)
Fixpoint R2_loop (labels prediction : list Qc) (range : list nat)
    (sumOfErrors nullModel : Qc) : outcome (Qc * Qc) :=
  match range with
  | [] => Returned (sumOfErrors, nullModel)
  | i :: range' =>
      l <- py_index labels i ;;
      p <- py_index prediction i ;;
      R2_loop labels prediction range'
        (sumOfErrors + (l - p) ^ 2) (nullModel + (half - l) ^ 2)
  end.

Definition R2 (labels prediction : list Qc) : outcome Qc :=
  sums <- R2_loop labels prediction (seq 0 (length labels)) 0 0 ;;
  q <- py_div (fst sums) (snd sums) ;;
  Returned (1 - q).

Local Close Scope Qc_scope.

(** ** Notions used to state the properties *)

(** The rows of a label container, whichever the mode. *)
Definition label_rows {Target : Type} (labels : Labels Target)
  : list (list bool + Target) :=
  match labels with
  | BoolLabels rows => map inl rows
  | FullLabels targets => map inr targets
  end.

(** The co-indexed (feature, label, date) triples of a dataset. *)
Definition triples {Feature Target : Type} (dataset : list Feature)
    (labels : Labels Target) (dates : list Date)
  : list (Feature * (list bool + Target) * Date) :=
  combine (combine dataset (label_rows labels)) dates.


(** The interface contract of a dataset model: one feature matrix per
    output date, and auxiliary targets of the same length. *)
Definition model_contract {Feature Target : Type}
    (m : DatasetModel Feature Target) : Prop :=
  forall properties,
    let '(dataset, dates, nextPrices) := generate m properties in
    length dataset = length dates /\ length nextPrices = length dates.

(** The label loop, as a relation: from cursor [i], every date is found
    at the first position [j >= i] of the series that carries it, that
    position has a successor, and the label compares the two prices. *)
Inductive labelled (ticks : list Tick)
  : nat -> list Date -> list (list bool) -> nat -> Prop :=
| labelled_nil i : labelled ticks i [] [] i
| labelled_cons i d dates j curr next rows k :
    (i <= j)%nat ->
    (forall m t, (i <= m < j)%nat -> nth_error ticks m = Some t -> date t <> d) ->
    nth_error ticks j = Some curr ->
    date curr = d ->
    nth_error ticks (S j) = Some next ->
    labelled ticks j dates rows k ->
    labelled ticks i (d :: dates)
      ([Qcltb (closePrice curr) (closePrice next)] :: rows) k.

(** [dates] can be read off the dates of a series front to back, a date
    being allowed to repeat the one before it: the precondition
    "dates MUST BE CHRONOLOGICALLY ORDERED" of [generateLabels],
    together with every date being one of the series. *)
Inductive in_order : list Date -> list Date -> Prop :=
| in_order_nil series_dates : in_order [] series_dates
| in_order_here d dates series_dates :
    in_order dates (d :: series_dates) ->
    in_order (d :: dates) (d :: series_dates)
| in_order_skip d dates x series_dates :
    in_order (d :: dates) series_dates ->
    in_order (d :: dates) (x :: series_dates).

(** The same series with every price sent through [f]. *)
Definition map_prices (f : Qc -> Qc) (ticks : list Tick) : list Tick :=
  map (fun t => {| date := date t; closePrice := f (closePrice t) |}) ticks.


Definition Zsum (l : list Z) : Z := fold_right Z.add 0 l.



Local Open Scope Qc_scope.

Definition Qcsum (l : list Qc) : Qc := fold_right Qcplus 0 l.

(** Sum over i of (labels[i] - predictions[i])^2. *)
Definition sum_squared_error (labels prediction : list Qc) : Qc :=
  Qcsum (map (fun lp => (fst lp - snd lp) ^ 2) (combine labels prediction)).

(** Sum over i of (c - labels[i])^2. *)
Definition sum_squared_deviation (c : Qc) (labels : list Qc) : Qc :=
  Qcsum (map (fun l => (c - l) ^ 2) labels).

Definition Qcmin (x y : Qc) : Qc := if Qcleb x y then x else y.

Definition Qcmean (l : list Qc) : Qc := Qcsum l / Qc_of_nat (length l).

(** Sum, over the positions whose minimum is not zero, of
    |label - prediction| / min(label, prediction). *)
Definition sum_relative_error (labels prediction : list Qc) : Qc :=
  Qcsum (map (fun lp => Qcabs (fst lp - snd lp) / Qcmin (fst lp) (snd lp))
             (filter (fun lp => negb (Qc_eq_bool (Qcmin (fst lp) (snd lp)) 0))
                     (combine labels prediction))).

(** Both values on the same side of the threshold 1/2: both at or
    above it, or both below it. *)
Definition same_side (l p : Qc) : bool :=
  (Qcleb half l && Qcleb half p) || (Qcltb l half && Qcltb p half).

(** The number of positions at which label and prediction are on the
    same side of 1/2. *)
Definition same_side_count (labels prediction : list Qc) : nat :=
  length (filter (fun lp => same_side (fst lp) (snd lp))
                 (combine labels prediction)).

(** The textbook coefficient of determination, whose null model is the
    mean of the labels. *)
Definition textbook_R2 (labels prediction : list Qc) : Qc :=
  1 - sum_squared_error labels prediction
      / sum_squared_deviation (Qcmean labels) labels.

Local Close Scope Qc_scope.

(** ** Concrete inputs *)

Definition Qc_of_Z (z : Z) : Qc := Q2Qc (inject_Z z).

Definition tick (d p : Z) : Tick := {| date := d; closePrice := Qc_of_Z p |}.

(** The price series of the specification's labelling example:
    (d1, 10), (d2, 12), (d3, 11), (d4, 9). *)
Definition sample_ticks : list Tick := [tick 1 10; tick 2 12; tick 3 11; tick 4 9].

(** A store whose properties are all sampled at the dates 1 to 4, and
    whose master interval is the request clipped to [[1, 5)]. *)
Definition sample_frame : Frame :=
  [(1, Num (Qc_of_Z 10)); (2, Num (Qc_of_Z 12));
   (3, Num (Qc_of_Z 11)); (4, Num (Qc_of_Z 9))].

Definition clip_interval (start end_ : option Date) : option Date * option Date :=
  (Some (match start with Some s => Z.max s 1 | None => 1 end),
   Some (match end_ with Some e => Z.min e 5 | None => 5 end)).

Definition store_with (ticks : list Tick) : ChunkStore :=
  {| series := fun _ => sample_frame;
     prices := ticks;
     getMasterInterval := fun _ => clip_interval |}.

Definition sample_store : ChunkStore := store_with sample_ticks.

(** A model with one feature per row of its first property. *)
Definition first_column (properties : list Frame)
  : list Value * list Date * list Value :=
  match properties with
  | [] => ([], [], [])
  | p :: _ => (map snd p, map fst p, map snd p)
  end.

Definition model_a : DatasetModel Value Value :=
  {| name := "matrix"; generate := first_column |}.

(** A second model registered under the same name. *)
Definition model_b : DatasetModel Value Value :=
  {| name := "matrix"; generate := fun _ => ([], [], []) |}.

Definition no_pickle (s : string) : outcome Value := Raised ValueError.

(** A draw of the random source: the positions in reverse order. *)
Definition reverse_order (n : nat) : list nat := rev (seq 0 n).

(** Labels and predictions for the scoring functions; the second
    position has label 0, hence a zero minimum. *)
Definition sample_labels : list Qc := [Qc_of_Z 1; Qc_of_Z 0; Qc_of_Z 2].
Definition sample_prediction : list Qc := [Qc_of_Z 2; Qc_of_Z 3; Qc_of_Z 2].

(** A model that breaks its contract: no feature matrix at all for the
    dates it returns. *)
Definition model_no_features : DatasetModel Value Value :=
  {| name := "stacked";
     generate := fun properties =>
       let '(_, dates, nextPrices) := first_column properties in
       ([], dates, nextPrices) |}.

(** A rescaling of prices that keeps their order. *)
Definition one_more (x : Qc) : Qc := (x + 1)%Qc.

(** A store in which 'gasPrice' has fewer rows than the other
    properties. *)
Definition uneven_store : ChunkStore :=
  {| series := fun prop =>
       if String.eqb prop "gasPrice" then firstn 2 sample_frame else sample_frame;
     prices := sample_ticks;
     getMasterInterval := fun _ => clip_interval |}.

(** A store whose columns hold encoded payloads, and a decoder for
    them. *)
Definition encoded_store : ChunkStore :=
  {| series := fun _ => [(1, Str "gANdcQAu"); (2, Str "gANdcQAu")];
     prices := sample_ticks;
     getMasterInterval := fun _ => clip_interval |}.

Definition empty_array (s : string) : outcome Value := Returned (Arr []).

(** * Properties *)

(** ** Python sequences *)

Lemma py_bound_nat (len n : nat) : py_bound len (Z.of_nat n) = Nat.min n len.
Proof.
  unfold py_bound.
  destruct (Z.ltb_spec (Z.of_nat n) 0); lia.
Qed.

Lemma py_slice_prefix {A : Type} (l : list A) (n : nat) :
  py_slice l 0 (Some (Z.of_nat n)) = firstn n l.
Proof.
  unfold py_slice.
  rewrite py_bound_nat, (py_bound_nat _ 0).
  cbn [Nat.min]. rewrite Nat.sub_0_r. cbn [skipn].
  destruct (Nat.le_ge_cases n (length l)) as [Hle | Hge].
  - now rewrite Nat.min_l.
  - rewrite Nat.min_r by assumption.
    now rewrite !firstn_all2.
Qed.

Lemma Qcltb_lt (x y : Qc) : Qcltb x y = true <-> (x < y)%Qc.
Proof.
  unfold Qcltb. rewrite Qclt_alt.
  destruct (x ?= y)%Qc; split; congruence.
Qed.

(** ** The cursor of [generateLabels] *)

Lemma advance_found (rest : list Tick) (i : nat) (d : Date) (j : nat) :
  advance rest i d = Returned j ->
  (i <= j)%nat /\
  (exists t, nth_error rest (j - i) = Some t /\ date t = d) /\
  (forall m t, (m < j - i)%nat -> nth_error rest m = Some t -> date t <> d).
Proof.
  revert i. induction rest as [| t rest IH]; intros i H; cbn in H.
  - discriminate.
  - destruct (Z.eqb_spec (date t) d) as [Heq | Hne].
    + injection H as <-. rewrite Nat.sub_diag. split; [lia |].
      split; [exists t; now split | intros m t' Hm; lia].
    + apply IH in H as (Hle & (t' & Hnth & Hd) & Hfirst).
      split; [lia |]. split.
      * exists t'. split; [| assumption].
        replace (j - i)%nat with (S (j - S i)) by lia. exact Hnth.
      * intros m t'' Hm Hnth'. destruct m as [| m]; cbn in Hnth'.
        -- now injection Hnth' as <-.
        -- apply (Hfirst m); [lia | assumption].
Qed.

Lemma advance_missing (rest : list Tick) (i : nat) (d : Date) :
  advance rest i d = Raised IndexError <->
  (forall t, In t rest -> date t <> d).
Proof.
  revert i. induction rest as [| t rest IH]; intros i; cbn.
  - split; [intros _ t [] | reflexivity].
  - destruct (Z.eqb_spec (date t) d) as [Heq | Hne].
    + split; [discriminate |]. intros H. now destruct (H t (or_introl eq_refl)).
    + rewrite IH. split.
      * intros H t' [<- | Hin]; [assumption | now apply H].
      * intros H t' Hin. apply H. now right.
Qed.

Lemma advance_outcome (rest : list Tick) (i : nat) (d : Date) :
  (exists j, advance rest i d = Returned j) \/ advance rest i d = Raised IndexError.
Proof.
  revert i. induction rest as [| t rest IH]; intros i; cbn.
  - now right.
  - destruct (date t =? d); [left; now exists i | apply IH].
Qed.

Lemma advance_in_series (ticks : list Tick) (i : nat) (d : Date) (j : nat) :
  advance (skipn i ticks) i d = Returned j ->
  (i <= j)%nat /\
  (exists t, nth_error ticks j = Some t /\ date t = d) /\
  (forall m t, (i <= m < j)%nat -> nth_error ticks m = Some t -> date t <> d).
Proof.
  intros H. apply advance_found in H as (Hle & (t & Hnth & Hd) & Hfirst).
  rewrite nth_error_skipn in Hnth.
  replace (i + (j - i))%nat with j in Hnth by lia.
  split; [assumption |]. split; [now exists t |].
  intros m t' Hm Hnth'. apply (Hfirst (m - i)%nat); [lia |].
  rewrite nth_error_skipn. now replace (i + (m - i))%nat with m by lia.
Qed.

(** ** The label loop *)

Lemma labelled_length ticks i dates rows k :
  labelled ticks i dates rows k -> length rows = length dates.
Proof. induction 1; cbn; congruence. Qed.

(** Whatever way the loop ends, the labels it added are those of a
    prefix of the dates, each computed as [labelled] says. *)
Lemma label_loop_labelled (ticks : list Tick) (dates : list Date) :
  forall i acc r,
    label_loop ticks dates i acc = Returned r ->
    match r with
    | Completed k labels =>
        exists rows, labels = acc ++ rows /\ labelled ticks i dates rows k
    | Broke labels =>
        exists rows k,
          labels = acc ++ rows /\ (length rows < length dates)%nat /\
          labelled ticks i (firstn (length rows) dates) rows k
    end.
Proof.
  induction dates as [| d dates IH]; intros i acc r H; cbn [label_loop] in H.
  - injection H as <-. exists []. rewrite app_nil_r. split; [reflexivity | constructor].
  - unfold bind in H.
    destruct (advance (skipn i ticks) i d) as [j |] eqn:Hadv; [| discriminate].
    apply advance_in_series in Hadv as (Hle & (t & Hj & Hd) & Hfirst).
    rewrite Hj in H.
    destruct (nth_error ticks (S j)) as [next |] eqn:Hnext.
    + apply IH in H. destruct r as [k labels | labels].
      * destruct H as (rows & -> & Hrows).
        eexists. rewrite <- app_assoc. split; [reflexivity |].
        cbn. now apply labelled_cons with (j := j).
      * destruct H as (rows & k & -> & Hlen & Hrows).
        eexists. exists k. rewrite <- app_assoc. split; [reflexivity |].
        cbn. split; [lia |]. now apply labelled_cons with (j := j).
    + injection H as <-. exists [], i. rewrite app_nil_r. cbn.
      split; [reflexivity |]. split; [lia | constructor].
Qed.

Lemma label_loop_app (ticks : list Tick) (pre post : list Date) :
  forall i acc,
    label_loop ticks (pre ++ post) i acc =
    r <- label_loop ticks pre i acc ;;
    match r with
    | Completed k labels => label_loop ticks post k labels
    | Broke labels => Returned (Broke labels)
    end.
Proof.
  induction pre as [| d pre IH]; intros i acc; cbn [app label_loop].
  - cbn [bind]. now destruct (label_loop ticks post i acc).
  - destruct (advance (skipn i ticks) i d) as [j |]; cbn [bind]; [| reflexivity].
    destruct (nth_error ticks j); [| reflexivity].
    destruct (nth_error ticks (S j)); [| reflexivity].
    apply IH.
Qed.

Lemma label_loop_completed_length ticks dates i acc k labels :
  label_loop ticks dates i acc = Returned (Completed k labels) ->
  length labels = (length acc + length dates)%nat.
Proof.
  intros H. apply label_loop_labelled in H as (rows & -> & Hrows).
  apply labelled_length in Hrows. rewrite length_app. lia.
Qed.

Lemma labelled_pointwise ticks i dates rows k :
  labelled ticks i dates rows k ->
  forall n row, nth_error rows n = Some row ->
    exists d j curr next,
      nth_error dates n = Some d /\
      nth_error ticks j = Some curr /\ date curr = d /\
      nth_error ticks (S j) = Some next /\
      row = [Qcltb (closePrice curr) (closePrice next)].
Proof.
  induction 1 as [| i d dates j curr next rows k Hle Hfirst Hj Hd Hnext Hrest IH];
    intros n row Hn.
  - destruct n; discriminate.
  - destruct n as [| n]; cbn in Hn.
    + injection Hn as <-. exists d, j, curr, next. cbn. auto.
    + destruct (IH n row Hn) as (d' & j' & c' & n' & H1 & H2).
      exists d', j', c', n'. cbn. auto.
Qed.

(** What boolean mode returns: the labels of a prefix of the dates,
    and exactly that prefix as the dates. *)
Lemma generateLabels_boolean_shape {Target : Type} (dates : list Date)
    (aux : list Target) (ticks : list Tick) labels dates' :
  generateLabels dates aux ticks "boolean" = Returned (Some (labels, dates')) ->
  exists rows k,
    labels = BoolLabels rows /\ dates' = firstn (length rows) dates /\
    labelled ticks 0 dates' rows k.
Proof.
  unfold generateLabels. cbn [String.eqb Ascii.eqb Bool.eqb andb].
  unfold bind.
  destruct (label_loop ticks dates 0 []) as [[k rows | rows] |] eqn:Hloop;
    [| | discriminate]; intros H; injection H as <- <-;
    apply label_loop_labelled in Hloop; cbn in Hloop.
  - destruct Hloop as (rows' & -> & Hrows).
    exists rows', k. split; [reflexivity |].
    rewrite (labelled_length _ _ _ _ _ Hrows), firstn_all. now split.
  - destruct Hloop as (rows' & k & -> & _ & Hrows).
    exists rows', k. rewrite py_slice_prefix. now repeat split.
Qed.

(** C2. In boolean mode, every label that is produced belongs to the
    date at the same position of the input (and of the returned dates);
    the price series has an entry with exactly that date, that entry has
    a positional successor in the same series, and the label is the
    one-element row holding [true] if and only if the successor's price
    is strictly greater than the entry's price. *)
Theorem generateLabels_boolean_label {Target : Type} (dates : list Date)
    (aux : list Target) (ticks : list Tick) (rows : list (list bool))
    (dates' : list Date) :
  generateLabels dates aux ticks "boolean" = Returned (Some (BoolLabels rows, dates')) ->
  forall n row, nth_error rows n = Some row ->
    exists d j curr next b,
      nth_error dates n = Some d /\ nth_error dates' n = Some d /\
      nth_error ticks j = Some curr /\ date curr = d /\
      nth_error ticks (S j) = Some next /\
      row = [b] /\
      (b = true <-> (closePrice curr < closePrice next)%Qc).
Proof.
  intros H n row Hn.
  apply generateLabels_boolean_shape in H as (rows' & k & Heq & Hdates & Hlab).
  injection Heq as <-.
  destruct (labelled_pointwise _ _ _ _ _ Hlab n row Hn)
    as (d & j & curr & next & Hd & Hj & Hdate & Hnext & Hrow).
  exists d, j, curr, next, (Qcltb (closePrice curr) (closePrice next)).
  repeat split; try assumption.
  - rewrite Hdates in Hd. rewrite nth_error_firstn in Hd.
    destruct (n <? length rows)%nat; [assumption | discriminate].
  - apply Qcltb_lt.
  - apply Qcltb_lt.
Qed.

Lemma generateLabels_boolean_label_witness :
  exists d j curr next b,
    nth_error [1; 2; 3] 1 = Some d /\ nth_error [1; 2; 3] 1 = Some d /\
    nth_error sample_ticks j = Some curr /\ date curr = d /\
    nth_error sample_ticks (S j) = Some next /\
    [false] = [b] /\
    (b = true <-> (closePrice curr < closePrice next)%Qc).
Proof.
  apply (generateLabels_boolean_label (Target := Qc) [1; 2; 3] [] sample_ticks
           [[true]; [false]; [false]] [1; 2; 3] eq_refl 1%nat [false] eq_refl).
Defined.

(** The cursor is kept between dates and only moves forward: the entry
    found for a date is the first one, at or after the entry found for
    the previous date, that carries the date. *)
Lemma generateLabels_boolean_forward {Target : Type} (dates : list Date)
    (aux : list Target) (ticks : list Tick) (rows : list (list bool))
    (dates' : list Date) :
  generateLabels dates aux ticks "boolean" = Returned (Some (BoolLabels rows, dates')) ->
  exists k, dates' = firstn (length rows) dates /\ labelled ticks 0 dates' rows k.
Proof.
  intros H.
  apply generateLabels_boolean_shape in H as (rows' & k & Heq & Hdates & Hlab).
  injection Heq as <-. now exists k.
Qed.

(** Full mode hands the targets of the model and the dates through. *)
Lemma generateLabels_full {Target : Type} (dates : list Date)
    (aux : list Target) (ticks : list Tick) :
  generateLabels dates aux ticks "full" = Returned (Some (FullLabels aux, dates)).
Proof. reflexivity. Qed.

(** C3, as stated, fails: a date that the price series does not hold
    makes the cursor run off the end of the series, and the [IndexError]
    leaves [generateLabels]; nothing is returned. *)
Lemma generateLabels_missing_date_raises :
  (forall t, In t sample_ticks -> date t <> 5) /\
  generateLabels (Target := Qc) [1; 5] [] sample_ticks "boolean" = Raised IndexError /\
  generateLabels (Target := Qc) [1; 5] [] sample_ticks "boolean"
    <> Returned (Some (BoolLabels [[true]], [1])).
Proof.
  split; [| split].
  - intros t Hin. cbn in Hin.
    repeat (destruct Hin as [<- | Hin]; [cbn; lia |]). destruct Hin.
  - reflexivity.
  - discriminate.
Qed.

(** C3, amended. In boolean mode, when the dates before [d] have all
    been labelled and the entry found for [d] has no positional
    successor, [generateLabels] stops at [d] and returns the labels
    accumulated so far with the dates cut to their number (the dates
    before [d]); when instead no entry at or after the cursor carries
    [d], the [IndexError] of the cursor advance leaves
    [generateLabels]. *)
Theorem generateLabels_stops_without_successor {Target : Type}
    (pre : list Date) (d : Date) (post : list Date) (aux : list Target)
    (ticks : list Tick) (i : nat) (labels : list (list bool)) :
  label_loop ticks pre 0 [] = Returned (Completed i labels) ->
  (forall j,
      advance (skipn i ticks) i d = Returned j ->
      nth_error ticks (S j) = None ->
      length labels = length pre /\
      generateLabels (pre ++ d :: post) aux ticks "boolean"
      = Returned (Some (BoolLabels labels, pre))) /\
  ((forall t, In t (skipn i ticks) -> date t <> d) ->
      generateLabels (pre ++ d :: post) aux ticks "boolean" = Raised IndexError).
Proof.
  intros Hpre.
  assert (Hlen : length labels = length pre)
    by (apply label_loop_completed_length in Hpre; exact Hpre).
  split.
  - intros j Hadv Hnext. split; [assumption |].
    unfold generateLabels. cbn [String.eqb Ascii.eqb Bool.eqb andb].
    rewrite label_loop_app, Hpre. cbn [bind label_loop].
    rewrite Hadv. cbn [bind]. rewrite Hnext.
    destruct (nth_error ticks j); cbn [bind];
      now rewrite py_slice_prefix, Hlen, firstn_app, Nat.sub_diag, firstn_all,
        firstn_O, app_nil_r.
  - intros Hmiss. apply (advance_missing _ i) in Hmiss.
    unfold generateLabels. cbn [String.eqb Ascii.eqb Bool.eqb andb].
    rewrite label_loop_app, Hpre. cbn [bind label_loop].
    now rewrite Hmiss.
Qed.

Lemma generateLabels_stops_without_successor_witness :
  length [[true]; [false]] = length [1; 2] /\
  generateLabels (Target := Qc) ([1; 2] ++ 4 :: [3]) [] sample_ticks "boolean"
  = Returned (Some (BoolLabels [[true]; [false]], [1; 2])).
Proof.
  exact (proj1 (generateLabels_stops_without_successor (Target := Qc)
                  [1; 2] 4 [3] [] sample_ticks 1 [[true]; [false]] eq_refl)
               3%nat eq_refl eq_refl).
Defined.

(** ** The label loop on ordered dates *)

Lemma in_order_later (dates : list Date) (x : Date) (series_dates : list Date) :
  in_order dates series_dates -> in_order dates (x :: series_dates).
Proof.
  intros H. destruct dates as [| d dates]; [constructor | now constructor].
Qed.

Lemma in_order_tail (d : Date) (dates series_dates : list Date) :
  in_order (d :: dates) series_dates -> in_order dates series_dates.
Proof.
  intros H. remember (d :: dates) as ds eqn:E.
  induction H as [| d' dates' sd H _ | d' dates' x sd H IH]; try discriminate.
  - injection E as -> ->. exact H.
  - apply in_order_later, IH, E.
Qed.

(** On such dates the cursor always finds its date, and the dates that
    are left can still be read off the series from the entry found. *)
Lemma advance_in_order (rest : list Tick) (d : Date) (dates : list Date) :
  forall i,
    in_order (d :: dates) (map date rest) ->
    exists j,
      advance rest i d = Returned j /\
      in_order dates (map date (skipn (j - i) rest)).
Proof.
  induction rest as [| t rest IH]; intros i H; cbn [map] in H.
  - inversion H.
  - cbn [advance]. destruct (Z.eqb_spec (date t) d) as [Heq | Hne].
    + exists i. split; [reflexivity |].
      rewrite Nat.sub_diag. cbn [skipn map].
      inversion H as [| ? ? ? Hhere | ? ? ? ? Hskip]; subst.
      * exact Hhere.
      * apply in_order_later. now apply in_order_tail in Hskip.
    + inversion H as [| ? ? ? Hhere | ? ? ? ? Hskip]; subst; [congruence |].
      destruct (IH (S i) Hskip) as (j & Hj & Hrest).
      exists j. split; [assumption |].
      apply advance_found in Hj as Hle. destruct Hle as [Hle _].
      replace (j - i)%nat with (S (j - S i)) by lia. exact Hrest.
Qed.

Lemma label_loop_in_order (ticks : list Tick) (dates : list Date) :
  forall i labels,
    in_order dates (map date (skipn i ticks)) ->
    exists r, label_loop ticks dates i labels = Returned r.
Proof.
  induction dates as [| d dates IH]; intros i labels H; cbn [label_loop].
  - eauto.
  - destruct (advance_in_order _ d dates i H) as (j & Hj & Hrest).
    rewrite Hj. cbn [bind].
    destruct (nth_error ticks j); [| eauto].
    destruct (nth_error ticks (S j)); [| eauto].
    apply IH.
    apply advance_found in Hj as [Hle _].
    rewrite skipn_skipn in Hrest.
    now replace (j - i + i)%nat with j in Hrest by lia.
Qed.

(** On chronologically ordered dates of the series, boolean mode
    returns; it never raises. *)
Lemma generateLabels_boolean_returns {Target : Type} (dates : list Date)
    (aux : list Target) (ticks : list Tick) :
  in_order dates (map date ticks) ->
  exists rows dates',
    generateLabels dates aux ticks "boolean"
    = Returned (Some (BoolLabels rows, dates')).
Proof.
  intros H. unfold generateLabels. cbn [String.eqb Ascii.eqb Bool.eqb andb].
  destruct (label_loop_in_order ticks dates 0 [] H) as [[k rows | rows] ->];
    cbn [bind]; eauto.
Qed.

(** ** Model selection *)

Section Selection.

Context {Feature Target : Type}.
Implicit Types (models : list (DatasetModel Feature Target)) (modelName : string).

Lemma select_model_app models1 models2 modelName init :
  select_model (models1 ++ models2) modelName init
  = select_model models2 modelName (select_model models1 modelName init).
Proof.
  revert init. induction models1 as [| m models1 IH]; intros init; cbn.
  - reflexivity.
  - apply IH.
Qed.

Lemma select_model_no_match models modelName init :
  (forall m, In m models -> name m <> modelName) ->
  select_model models modelName init = init.
Proof.
  revert init. induction models as [| m models IH]; intros init H; cbn.
  - reflexivity.
  - destruct (String.eqb_spec (name m) modelName) as [Heq | _].
    + now destruct (H m (or_introl eq_refl)).
    + apply IH. intros m' Hin. apply H. now right.
Qed.

(** The scan keeps the last model that carries the name. *)
Lemma select_model_last models1 m models2 modelName init :
  name m = modelName ->
  (forall m', In m' models2 -> name m' <> modelName) ->
  select_model (models1 ++ m :: models2) modelName init = Some m.
Proof.
  intros Hm Hrest. rewrite select_model_app. cbn.
  rewrite (proj2 (String.eqb_eq _ _) Hm).
  now apply select_model_no_match.
Qed.

Lemma select_model_In models modelName m :
  select_model models modelName None = Some m ->
  In m models /\ name m = modelName.
Proof.
  assert (H : forall init,
             select_model models modelName init = Some m ->
             init = Some m \/ (In m models /\ name m = modelName)).
  { induction models as [| m' models IH]; intros init Hsel; cbn in Hsel.
    - now left.
    - apply IH in Hsel as [Hinit | [Hin Hname]].
      + destruct (String.eqb_spec (name m') modelName) as [Heq | Hne].
        * injection Hinit as <-. right. split; [now left | assumption].
        * now left.
      + right. split; [now right | assumption]. }
  intros Hsel. now destruct (H None Hsel) as [? | ?].
Qed.

End Selection.

(** ** Lengths out of the labeler *)

Lemma generateLabels_lengths {Target : Type} (dates : list Date)
    (aux : list Target) (ticks : list Tick) (labelsType : string) labels dates' :
  generateLabels dates aux ticks labelsType = Returned (Some (labels, dates')) ->
  length aux = length dates ->
  labels_len labels = length dates' /\ (length dates' <= length dates)%nat.
Proof.
  intros H Haux.
  destruct (String.eqb_spec labelsType "boolean") as [-> | Hnb].
  - apply generateLabels_boolean_shape in H as (rows & k & -> & Hdates & Hlab).
    apply labelled_length in Hlab. cbn. split; [assumption |].
    rewrite Hdates. rewrite length_firstn. lia.
  - unfold generateLabels in H.
    rewrite (proj2 (String.eqb_neq _ _) Hnb) in H.
    destruct (String.eqb labelsType "full"); [| discriminate].
    injection H as <- <-. cbn. split; [assumption | lia].
Qed.

(** ** generateDataset *)

Section AssemblerFacts.

Context {Feature Target : Type}.
Variable unpickle : string -> outcome Value.
Implicit Types (models : list (DatasetModel Feature Target)) (store : ChunkStore).

(** C1. Whenever [generateDataset] returns a triple, for any label
    mode and whether or not labelling stopped early, the features, the
    labels and the dates have the same length, given that the
    registered dataset models keep their interface contract (one
    feature matrix per output date, targets of the same length). *)
Theorem generateDataset_lengths models store modelName propertyNames
    labelsType start end_ dataset labels dates :
  Forall model_contract models ->
  generateDataset unpickle models store modelName propertyNames labelsType
    start end_ = Returned (Dataset dataset labels dates) ->
  length dataset = labels_len labels /\ labels_len labels = length dates.
Proof.
  intros Hcontract. unfold generateDataset.
  destruct (select_model models modelName None) as [model |] eqn:Hsel;
    [| discriminate].
  apply select_model_In in Hsel as [Hin _].
  rewrite Forall_forall in Hcontract. specialize (Hcontract model Hin).
  destruct (getMasterInterval store propertyNames start end_) as [start' end'].
  unfold bind at 1.
  destruct (mapM _ propertyNames) as [properties |]; [| discriminate].
  destruct (negb (same_lengths properties)); [discriminate |].
  specialize (Hcontract properties).
  destruct (generate model properties) as [[dataset0 dates0] aux].
  destruct Hcontract as [Hds Haux].
  unfold bind.
  destruct (generateLabels dates0 aux _ labelsType) as [[[labels' dates'] |] |] eqn:Hlab;
    try discriminate.
  intros H. injection H as <- <- <-.
  apply generateLabels_lengths in Hlab as [Hlen Hle]; [| assumption].
  split; [| assumption].
  destruct (Nat.eqb_spec (length dataset0) (labels_len labels')) as [Heq | Hne];
    cbn [negb].
  - assumption.
  - rewrite py_slice_prefix, length_firstn. lia.
Qed.

(** C8, amended. The scan over the registry has no early exit: when
    several registered models carry the requested name, the last one
    in registry order is the one used; when none does,
    [generateDataset] reports the unknown model and yields no
    dataset. *)
Theorem generateDataset_model_selection models store modelName
    propertyNames labelsType start end_ :
  (forall models1 m models2,
      models = models1 ++ m :: models2 ->
      name m = modelName ->
      (forall m', In m' models2 -> name m' <> modelName) ->
      select_model models modelName None = Some m /\
      generateDataset unpickle models store modelName propertyNames
        labelsType start end_
      = generateDataset unpickle [m] store modelName propertyNames
          labelsType start end_) /\
  ((forall m, In m models -> name m <> modelName) ->
      generateDataset unpickle models store modelName propertyNames
        labelsType start end_
      = Returned (NoDataset (CouldntFindModel modelName))).
Proof.
  split.
  - intros models1 m models2 -> Hm Hrest.
    assert (Hsel : select_model (models1 ++ m :: models2) modelName None = Some m)
      by now apply select_model_last.
    split; [assumption |].
    unfold generateDataset. rewrite Hsel. cbn [select_model].
    now rewrite (proj2 (String.eqb_eq _ _) Hm).
  - intros Hnone. unfold generateDataset.
    now rewrite select_model_no_match.
Qed.

End AssemblerFacts.

Lemma first_column_contract : model_contract model_a.
Proof.
  intros [| p properties]; cbn.
  - now split.
  - now rewrite !length_map.
Qed.

Lemma generateDataset_lengths_witness :
  length [Num (Qc_of_Z 10); Num (Qc_of_Z 12); Num (Qc_of_Z 11)]
  = labels_len (Target := Value) (BoolLabels [[true]; [false]; [false]]) /\
  labels_len (Target := Value) (BoolLabels [[true]; [false]; [false]])
  = length [1; 2; 3].
Proof.
  apply (generateDataset_lengths no_pickle [model_a] sample_store "matrix"
           ["closePrice"] "boolean" None None _ _ _
           (Forall_cons _ first_column_contract (Forall_nil _)) eq_refl).
Defined.

(** C8, as stated, fails: with two models registered under the
    requested name, the dataset is the one of the second model, not of
    the first. *)
Lemma generateDataset_duplicate_name_not_first :
  name model_a = "matrix" /\ name model_b = "matrix" /\
  select_model [model_a; model_b] "matrix" None = Some model_b /\
  select_model [model_a; model_b] "matrix" None <> Some model_a /\
  generateDataset no_pickle [model_a; model_b] sample_store "matrix"
    ["closePrice"] "boolean" None None
  = Returned (Dataset [] (BoolLabels []) []) /\
  generateDataset no_pickle [model_a; model_b] sample_store "matrix"
    ["closePrice"] "boolean" None None
  <> generateDataset no_pickle [model_a] sample_store "matrix"
       ["closePrice"] "boolean" None None.
Proof.
  repeat split.
  - intros H. injection H as H.
    apply (f_equal (fun f => f [sample_frame])) in H. discriminate H.
  - discriminate.
Qed.

Lemma generateDataset_model_selection_witness :
  select_model [model_a; model_b] "matrix" None = Some model_b /\
  generateDataset no_pickle [model_a; model_b] sample_store "matrix"
    ["closePrice"] "boolean" None None
  = generateDataset no_pickle [model_b] sample_store "matrix"
      ["closePrice"] "boolean" None None.
Proof.
  apply (proj1 (generateDataset_model_selection no_pickle [model_a; model_b]
                  sample_store "matrix" ["closePrice"] "boolean" None None)
               [model_a] model_b [] eq_refl eq_refl).
  intros m' [].
Defined.

(** ** The price series of the labels *)

Lemma in_interval_end (start : option Date) (e d : Date) :
  e <= d -> in_interval start (Some e) d = false.
Proof.
  intros H. unfold in_interval.
  destruct (Z.ltb_spec d e); [lia |]. apply andb_false_r.
Qed.

Section LabelSeries.

Context {Feature Target : Type}.
Variable unpickle : string -> outcome Value.

(** C9. The price series handed to the labeler is loaded from the
    clipped start with the end left open.  So when the dates before
    the last date [d] are labelled, [d] is found, and its positional
    successor in that series lies at or beyond the clipped end [e],
    the label of [d] is still produced, from the successor's price,
    although the successor is no row of the series over
    [[start, e)]. *)
Theorem generateDataset_label_beyond_end
    (models : list (DatasetModel Feature Target)) (store : ChunkStore)
    (modelName : string) (propertyNames : list string)
    (start end_ : option Date) (model : DatasetModel Feature Target)
    (start' : option Date) (e : Date) (properties : list Frame)
    (dataset : list Feature) (pre : list Date) (d : Date)
    (aux : list Target) (i j : nat) (labels : list (list bool))
    (curr next : Tick) :
  let ticks := loadData date (prices store) start' None in
  select_model models modelName None = Some model ->
  getMasterInterval store propertyNames start end_ = (start', Some e) ->
  mapM (load_property unpickle store start' (Some e)) propertyNames
    = Returned properties ->
  same_lengths properties = true ->
  generate model properties = (dataset, pre ++ [d], aux) ->
  label_loop ticks pre 0 [] = Returned (Completed i labels) ->
  advance (skipn i ticks) i d = Returned j ->
  nth_error ticks j = Some curr ->
  nth_error ticks (S j) = Some next ->
  e <= date next ->
  ~ In next (loadData date (prices store) start' (Some e)) /\
  date curr = d /\
  exists dataset',
    generateDataset unpickle models store modelName propertyNames "boolean"
      start end_
    = Returned (Dataset dataset'
                  (BoolLabels
                     (labels ++ [[Qcltb (closePrice curr) (closePrice next)]]))
                  (pre ++ [d])).
Proof.
  intros ticks Hsel Hint Hload Hsame Hgen Hpre Hadv Hcurr Hnext Hend.
  split; [| split].
  - unfold loadData. rewrite filter_In. intros [_ Hin].
    now rewrite in_interval_end in Hin.
  - apply advance_in_series in Hadv as (_ & (t & Ht & Hd) & _).
    fold ticks in Ht. congruence.
  - unfold generateDataset. rewrite Hsel, Hint, Hload. cbn [bind].
    rewrite Hsame. cbn [negb]. rewrite Hgen.
    unfold generateLabels. cbn [String.eqb Ascii.eqb Bool.eqb andb].
    fold ticks. rewrite label_loop_app, Hpre. cbn [bind label_loop].
    rewrite Hadv. cbn [bind]. rewrite Hcurr, Hnext. cbn [bind].
    eexists. reflexivity.
Qed.

End LabelSeries.

Lemma generateDataset_label_beyond_end_witness :
  ~ In (tick 4 9) (loadData date (prices sample_store) (Some 1) (Some 4)) /\
  date (tick 3 11) = 3 /\
  exists dataset',
    generateDataset no_pickle [model_a] sample_store "matrix" ["closePrice"]
      "boolean" (Some 0) (Some 4)
    = Returned (Dataset dataset' (BoolLabels ([[true]; [false]] ++ [[false]]))
                  ([1; 2] ++ [3])).
Proof.
  apply (generateDataset_label_beyond_end no_pickle [model_a] sample_store
           "matrix" ["closePrice"] (Some 0) (Some 4) model_a (Some 1) 4
           [firstn 3 sample_frame] (firstn 3 (map snd sample_frame)) [1; 2] 3
           (firstn 3 (map snd sample_frame)) 1 2 [[true]; [false]]
           (tick 3 11) (tick 4 9)
           eq_refl eq_refl eq_refl eq_refl eq_refl eq_refl eq_refl eq_refl
           eq_refl).
  cbn. lia.
Defined.

(** The label of the last in-range date depends on a price outside the
    requested interval: two stores that agree on every tick before the
    end 4 of the request, and differ in the tick at 4, give different
    labels for the date 3. *)
Lemma generateDataset_label_depends_on_later_tick :
  let ticks' := [tick 1 10; tick 2 12; tick 3 11; tick 4 20] in
  loadData date ticks' None (Some 4) = loadData date sample_ticks None (Some 4) /\
  generateDataset no_pickle [model_a] sample_store "matrix" ["closePrice"]
    "boolean" (Some 0) (Some 4)
  = Returned (Dataset (firstn 3 (map snd sample_frame))
                (BoolLabels [[true]; [false]; [false]]) [1; 2; 3]) /\
  generateDataset no_pickle [model_a] (store_with ticks') "matrix" ["closePrice"]
    "boolean" (Some 0) (Some 4)
  = Returned (Dataset (firstn 3 (map snd sample_frame))
                (BoolLabels [[true]; [false]; [true]]) [1; 2; 3]).
Proof. repeat split. Qed.

(** The equal lengths rest on the contract of the model: with a model
    that returns fewer feature matrices than dates, the triple that
    comes back has containers of unequal length, since only the
    features are ever cut. *)
Example generateDataset_lengths_without_contract :
  generateDataset no_pickle [model_no_features] sample_store "stacked"
    ["closePrice"] "full" None None
  = Returned (Dataset [] (FullLabels (map snd sample_frame)) [1; 2; 3; 4]).
Proof. reflexivity. Qed.

(** ** run *)

Section Run.

Context {Feature Target : Type}.
Variable unpickle : string -> outcome Value.
Variable np_random_permutation : nat -> list nat.

(** Without shuffling, [run] splits what [generateDataset] returned;
    when no dataset was generated, unpacking [None] raises. *)
Lemma run_without_shuffle (models : list (DatasetModel Feature Target))
    (store : ChunkStore) (model : string) (properties : list string)
    (start end_ : option Date) (labels : string) (ratio : list Z) :
  run unpickle np_random_permutation models store model properties start end_
    labels ratio false
  = g <- generateDataset unpickle models store model properties labels
         start end_ ;;
    match g with
    | Dataset dataset labels dates => split_data ratio dataset labels dates
    | NoDataset _ => Raised TypeError
    end.
Proof.
  unfold run.
  destruct (generateDataset unpickle models store model properties labels
              start end_) as [[dataset labels' dates | r] | e];
    reflexivity.
Qed.


End Run.

(** ** Reading a sequence at a list of positions *)

Section TakeIndices.

Context {A : Type}.
Implicit Types (l : list A) (p : list nat).

Lemma take_indices_cons l i p :
  take_indices l (i :: p)
  = x <- py_index l i ;; ys <- take_indices l p ;; Returned (x :: ys).
Proof. reflexivity. Qed.

Lemma py_index_Some l i x : nth_error l i = Some x -> py_index l i = Returned x.
Proof. unfold py_index. now intros ->. Qed.

Lemma py_index_Returned l i x : py_index l i = Returned x -> nth_error l i = Some x.
Proof. unfold py_index. destruct (nth_error l i); [congruence | discriminate]. Qed.

Lemma py_index_lt l i : (i < length l)%nat -> exists x, py_index l i = Returned x.
Proof.
  intros H. unfold py_index.
  destruct (nth_error l i) as [x |] eqn:E; [now exists x |].
  apply nth_error_None in E. lia.
Qed.

Lemma take_indices_total l p :
  Forall (fun i => (i < length l)%nat) p -> exists out, take_indices l p = Returned out.
Proof.
  induction 1 as [| i p Hi _ [out IH]].
  - now exists [].
  - destruct (py_index_lt l i Hi) as [x Hx].
    exists (x :: out). now rewrite take_indices_cons, Hx, IH.
Qed.

Lemma take_indices_length l p out :
  take_indices l p = Returned out -> length out = length p.
Proof.
  revert out. induction p as [| i p IH]; intros out H.
  - injection H as <-. reflexivity.
  - rewrite take_indices_cons in H.
    destruct (py_index l i); [| discriminate].
    destruct (take_indices l p) as [ys |]; [| discriminate].
    injection H as <-. cbn. f_equal. now apply IH.
Qed.

(** Reading at a rearrangement of the positions rearranges the rows
    read. *)
Lemma take_indices_Permutation l p q :
  Permutation p q ->
  forall a, take_indices l p = Returned a ->
            exists b, take_indices l q = Returned b /\ Permutation a b.
Proof.
  induction 1 as [| i p q _ IH | i j p | p q r _ IH1 _ IH2]; intros a Ha.
  - exists a. now split.
  - rewrite take_indices_cons in Ha.
    destruct (py_index l i) as [x |] eqn:Hx; [| discriminate].
    destruct (take_indices l p) as [ys |]; [| discriminate].
    injection Ha as <-. destruct (IH ys eq_refl) as (b & Hb & Hperm).
    exists (x :: b). rewrite take_indices_cons, Hx, Hb.
    split; [reflexivity | now constructor].
  - rewrite !take_indices_cons in Ha.
    destruct (py_index l j) as [y |] eqn:Hy; [| discriminate].
    destruct (py_index l i) as [x |] eqn:Hx; [| discriminate].
    destruct (take_indices l p) as [ys |] eqn:Hp; [| discriminate].
    injection Ha as <-. exists (x :: y :: ys).
    rewrite !take_indices_cons, Hx, Hy, Hp.
    split; [reflexivity | constructor].
  - destruct (IH1 a Ha) as (b & Hb & Hab).
    destruct (IH2 b Hb) as (c & Hc & Hbc).
    exists c. split; [assumption | now transitivity b].
Qed.

Lemma take_indices_seq_from (pre l : list A) :
  take_indices (pre ++ l) (seq (length pre) (length l)) = Returned l.
Proof.
  revert pre. induction l as [| x l IH]; intros pre.
  - reflexivity.
  - cbn [length seq]. rewrite take_indices_cons.
    rewrite (py_index_Some _ _ x).
    + specialize (IH (pre ++ [x])).
      rewrite <- app_assoc, length_app, Nat.add_1_r in IH.
      cbn [app] in IH. now rewrite IH.
    + rewrite nth_error_app2, Nat.sub_diag by lia. reflexivity.
Qed.

Lemma take_indices_seq l : take_indices l (seq 0 (length l)) = Returned l.
Proof. apply (take_indices_seq_from [] l). Qed.

End TakeIndices.

Lemma take_indices_map {A B : Type} (f : A -> B) (l : list A) (p : list nat) out :
  take_indices l p = Returned out ->
  take_indices (map f l) p = Returned (map f out).
Proof.
  revert out. induction p as [| i p IH]; intros out H.
  - injection H as <-. reflexivity.
  - rewrite take_indices_cons in H.
    destruct (py_index l i) as [x |] eqn:Hx; [| discriminate].
    destruct (take_indices l p) as [ys |]; [| discriminate].
    injection H as <-. rewrite take_indices_cons.
    rewrite (py_index_Some _ _ (f x)).
    + now rewrite (IH ys eq_refl).
    + apply py_index_Returned in Hx. now apply map_nth_error.
Qed.

Lemma nth_error_combine {A B : Type} (a : list A) (b : list B) i x y :
  nth_error a i = Some x -> nth_error b i = Some y ->
  nth_error (combine a b) i = Some (x, y).
Proof.
  revert b i. induction a as [| x' a IH]; intros [| y' b] [| i] Hx Hy;
    try discriminate; cbn in *.
  - congruence.
  - now apply IH.
Qed.

Lemma take_indices_combine {A B : Type} (a : list A) (b : list B)
    (p : list nat) a' b' :
  take_indices a p = Returned a' ->
  take_indices b p = Returned b' ->
  take_indices (combine a b) p = Returned (combine a' b').
Proof.
  revert a' b'. induction p as [| i p IH]; intros a' b' Ha Hb.
  - injection Ha as <-. injection Hb as <-. reflexivity.
  - rewrite take_indices_cons in Ha. rewrite take_indices_cons in Hb.
    destruct (py_index a i) as [x |] eqn:Hx; [| discriminate].
    destruct (take_indices a p) as [xs |]; [| discriminate].
    destruct (py_index b i) as [y |] eqn:Hy; [| discriminate].
    destruct (take_indices b p) as [ys |]; [| discriminate].
    injection Ha as <-. injection Hb as <-.
    rewrite take_indices_cons.
    rewrite (py_index_Some _ _ (x, y)).
    + now rewrite (IH xs ys eq_refl eq_refl).
    + apply nth_error_combine; now apply py_index_Returned.
Qed.

Lemma labels_take_rows {Target : Type} (labels : Labels Target) p labels' :
  labels_take labels p = Returned labels' ->
  take_indices (label_rows labels) p = Returned (label_rows labels').
Proof.
  destruct labels as [rows | targets]; cbn [labels_take label_rows]; unfold bind.
  - destruct (take_indices rows p) as [r |] eqn:Hr; [| discriminate].
    intros H. injection H as <-. now apply take_indices_map.
  - destruct (take_indices targets p) as [r |] eqn:Hr; [| discriminate].
    intros H. injection H as <-. now apply take_indices_map.
Qed.

Lemma labels_take_total {Target : Type} (labels : Labels Target) p :
  Forall (fun i => (i < labels_len labels)%nat) p ->
  exists labels', labels_take labels p = Returned labels'.
Proof.
  destruct labels as [rows | targets]; cbn [labels_take labels_len]; intros H;
    apply take_indices_total in H as [out ->]; cbn [bind]; eauto.
Qed.

Lemma label_rows_length {Target : Type} (labels : Labels Target) :
  length (label_rows labels) = labels_len labels.
Proof. destruct labels; cbn; apply length_map. Qed.

Lemma triples_length {Feature Target : Type} (dataset : list Feature)
    (labels : Labels Target) (dates : list Date) :
  length dataset = labels_len labels -> length dates = labels_len labels ->
  length (triples dataset labels dates) = labels_len labels.
Proof.
  intros H1 H2. unfold triples.
  rewrite !length_combine, label_rows_length. lia.
Qed.

(** ** randomizeDataset *)

(** C5. [randomizeDataset] draws one permutation of the positions
    [0 .. N-1] and reads features, labels and dates at it: the shuffled
    co-indexed triples are the original triples read at the positions
    of that single permutation, hence a rearrangement of the original
    triples. *)
Theorem randomizeDataset_permutes_triples {Feature Target : Type}
    (np_random_permutation : nat -> list nat) (dataset : list Feature)
    (labels : Labels Target) (dates : list Date) :
  length dataset = labels_len labels ->
  length dates = labels_len labels ->
  Permutation (np_random_permutation (labels_len labels))
              (seq 0 (labels_len labels)) ->
  exists shuffled_dataset shuffled_labels shuffled_dates,
    randomizeDataset np_random_permutation dataset labels dates
    = Returned (shuffled_dataset, shuffled_labels, shuffled_dates) /\
    take_indices (triples dataset labels dates)
      (np_random_permutation (labels_len labels))
    = Returned (triples shuffled_dataset shuffled_labels shuffled_dates) /\
    Permutation (triples shuffled_dataset shuffled_labels shuffled_dates)
                (triples dataset labels dates).
Proof.
  intros Hds Hdt Hperm.
  set (perm := np_random_permutation (labels_len labels)) in *.
  assert (Hrange : Forall (fun i => (i < labels_len labels)%nat) perm).
  { apply Forall_forall. intros i Hi.
    apply (Permutation_in _ Hperm), in_seq in Hi. lia. }
  destruct (take_indices_total dataset perm) as [sd Hsd];
    [now rewrite Hds |].
  destruct (labels_take_total labels perm Hrange) as [sl Hsl].
  destruct (take_indices_total dates perm) as [sdt Hsdt];
    [now rewrite Hdt |].
  exists sd, sl, sdt.
  assert (Htake : take_indices (triples dataset labels dates) perm
                  = Returned (triples sd sl sdt)).
  { unfold triples. apply take_indices_combine; [| assumption].
    apply take_indices_combine; [assumption |].
    now apply labels_take_rows. }
  split; [| split].
  - unfold randomizeDataset. fold perm. now rewrite Hsd, Hsl, Hsdt.
  - exact Htake.
  - destruct (take_indices_Permutation _ _ _ Hperm _ Htake) as (b & Hb & Hab).
    rewrite <- (triples_length dataset labels dates Hds Hdt) in Hb.
    rewrite take_indices_seq in Hb. injection Hb as <-. exact Hab.
Qed.

Lemma randomizeDataset_permutes_triples_witness :
  exists shuffled_dataset shuffled_labels shuffled_dates,
    randomizeDataset (Target := Qc) reverse_order [10; 20; 30]
      (BoolLabels [[true]; [false]; [false]]) [1; 2; 3]
    = Returned (shuffled_dataset, shuffled_labels, shuffled_dates) /\
    take_indices
      (triples (Target := Qc) [10; 20; 30] (BoolLabels [[true]; [false]; [false]])
         [1; 2; 3])
      (reverse_order 3)
    = Returned (triples shuffled_dataset shuffled_labels shuffled_dates) /\
    Permutation (triples shuffled_dataset shuffled_labels shuffled_dates)
      (triples (Target := Qc) [10; 20; 30] (BoolLabels [[true]; [false]; [false]])
         [1; 2; 3]).
Proof.
  apply (randomizeDataset_permutes_triples (Target := Qc) reverse_order
           [10; 20; 30] (BoolLabels [[true]; [false]; [false]]) [1; 2; 3]
           eq_refl eq_refl (Permutation_sym (Permutation_rev (seq 0 3)))).
Defined.

(** The shuffle on a concrete draw. *)
Example randomizeDataset_reverse :
  randomizeDataset (Target := Qc) reverse_order [10; 20; 30]
    (BoolLabels [[true]; [false]; [false]]) [1; 2; 3]
  = Returned ([30; 20; 10], BoolLabels [[false]; [false]; [true]], [3; 2; 1]).
Proof. reflexivity. Qed.

(** ** Slices *)








(** ** Sums of integers *)






Lemma Zsum_removelast_le (l : list Z) :
  Forall (fun x => 0 <= x) l -> Zsum (removelast l) <= Zsum l.
Proof.
  unfold Zsum. induction 1 as [| x l Hx Hl IH]; [reflexivity |].
  cbn [removelast]. destruct l; cbn in *; lia.
Qed.

(** ** The split lengths *)





(** ** The split loop *)

Section Slices.

Context {A : Type}.
Variable l : list A.




End Slices.

Section SplitLoop.

Context {Feature Target : Type}.
Variables (dataset : list Feature) (labels : Labels Target) (dates : list Date).





End SplitLoop.



(** The split on a concrete dataset of seven rows and the ratio 1:2:3. *)
Example split_data_1_2_3 :
  split_data (Target := Qc) [1; 2; 3] [10; 20; 30; 40; 50; 60; 70]
    (FullLabels []) [1; 2; 3; 4; 5; 6; 7]
  = Returned (Pieces
      [Build_Fragment [10] (FullLabels []) [1];
       Build_Fragment [20; 30] (FullLabels []) [2; 3];
       Build_Fragment [40; 50; 60; 70] (FullLabels []) [4; 5; 6; 7]]).
Proof. reflexivity. Qed.

(** ** Rational arithmetic *)

Local Open Scope Qc_scope.

Lemma Qc_eq_bool_true (x y : Qc) : Qc_eq_bool x y = true <-> x = y.
Proof.
  split; [apply Qc_eq_bool_correct |].
  intros ->. unfold Qc_eq_bool. now destruct (Qc_eq_dec y y).
Qed.

Lemma Qc_eq_bool_false (x y : Qc) : Qc_eq_bool x y = false <-> x <> y.
Proof.
  rewrite <- Qc_eq_bool_true. now destruct (Qc_eq_bool x y).
Qed.

Lemma Qc_of_nat_zero (n : nat) : Qc_of_nat n = 0 <-> n = 0%nat.
Proof.
  unfold Qc_of_nat. split.
  - intros H. apply Q2Qc_eq_iff in H. unfold Qeq in H. cbn in H. lia.
  - now intros ->.
Qed.

Lemma py_div_nonzero (x n : Qc) : n <> 0 -> py_div x n = Returned (x / n).
Proof.
  intros H. unfold py_div. now rewrite (proj2 (Qc_eq_bool_false n 0) H).
Qed.

Lemma py_div_zero (x : Qc) : py_div x 0 = Raised ZeroDivisionError.
Proof. reflexivity. Qed.

Lemma py_div_raises (x n : Qc) : py_div x n = Raised ZeroDivisionError <-> n = 0.
Proof.
  unfold py_div. destruct (Qc_eq_bool n 0) eqn:E.
  - apply Qc_eq_bool_true in E. now split.
  - apply Qc_eq_bool_false in E. split; [discriminate | contradiction].
Qed.

Lemma py_min_Qcmin (p l : Qc) : py_min p l = Qcmin l p.
Proof.
  unfold py_min, Qcmin, Qcleb.
  destruct (Qcltb l p) eqn:Hlp, (Qcltb p l) eqn:Hpl; cbn; try reflexivity.
  - apply Qcltb_lt in Hlp, Hpl.
    now destruct (Qclt_not_le _ _ Hlp (Qclt_le_weak _ _ Hpl)).
  - destruct (Qc_dec l p) as [[H | H] | H].
    + apply Qcltb_lt in H. congruence.
    + apply Qcltb_lt in H. congruence.
    + now symmetry.
Qed.






(** ** The loops of the scoring functions *)

Lemma py_index_middle {A : Type} (pre : list A) (x : A) (l : list A) :
  py_index (pre ++ x :: l) (length pre) = Returned x.
Proof.
  unfold py_index.
  now rewrite nth_error_app2, Nat.sub_diag by apply Nat.le_refl.
Qed.

Lemma snoc_step {A : Type} (pre : list A) (x : A) (l : list A) :
  pre ++ x :: l = (pre ++ [x]) ++ l /\ length (pre ++ [x]) = S (length pre).
Proof.
  split; [now rewrite <- app_assoc | rewrite length_app; cbn; lia].
Qed.

(** Over vectors of one length, [R2_loop] adds the squared errors and
    the squared deviations from the baseline to its two sums. *)
Lemma R2_loop_sums (labels prediction : list Qc) :
  forall pre_l pre_p sumOfErrors nullModel,
    length pre_l = length pre_p ->
    length labels = length prediction ->
    R2_loop (pre_l ++ labels) (pre_p ++ prediction)
            (seq (length pre_l) (length labels)) sumOfErrors nullModel
    = Returned (sumOfErrors + sum_squared_error labels prediction,
                nullModel + sum_squared_deviation half labels).
Proof.
  revert prediction.
  induction labels as [| l labels IH]; intros [| p prediction] pre_l pre_p se nm Hpre Hlen;
    try discriminate.
  - cbn. now rewrite !Qcplus_0_r.
  - cbn [length seq R2_loop].
    rewrite py_index_middle, Hpre, py_index_middle. cbn [bind].
    destruct (snoc_step pre_l l labels) as [-> Hl].
    destruct (snoc_step pre_p p prediction) as [-> Hp].
    rewrite <- Hpre, <- Hl.
    rewrite IH; [| congruence | now injection Hlen].
    unfold sum_squared_error, sum_squared_deviation, Qcsum.
    cbn [combine map fold_right fst snd].
    apply f_equal, f_equal2; ring.
Qed.

Lemma R2_loop_equal_length (labels prediction : list Qc) :
  length labels = length prediction ->
  R2_loop labels prediction (seq 0 (length labels)) 0 0
  = Returned (sum_squared_error labels prediction,
              sum_squared_deviation half labels).
Proof.
  intros H.
  pose proof (R2_loop_sums labels prediction [] [] 0 0 eq_refl H) as E.
  cbn [app length] in E. rewrite E.
  now rewrite !Qcplus_0_l.
Qed.

(** Over vectors of one length, [custom_loop] adds the relative errors
    of the positions whose minimum is not zero. *)
Lemma custom_loop_sum (labels prediction : list Qc) :
  forall pre_l pre_p total,
    length pre_l = length pre_p ->
    length labels = length prediction ->
    custom_loop (pre_l ++ labels) (pre_p ++ prediction)
                (seq (length pre_l) (length labels)) total
    = Returned (total + sum_relative_error labels prediction).
Proof.
  revert prediction.
  induction labels as [| l labels IH]; intros [| p prediction] pre_l pre_p total Hpre Hlen;
    try discriminate.
  - cbn. now rewrite Qcplus_0_r.
  - cbn [length seq custom_loop].
    rewrite py_index_middle, Hpre, py_index_middle. cbn [bind].
    destruct (snoc_step pre_l l labels) as [-> Hl].
    destruct (snoc_step pre_p p prediction) as [-> Hp].
    rewrite <- Hpre, <- Hl.
    rewrite IH; [| congruence | now injection Hlen].
    apply f_equal. unfold sum_relative_error, Qcsum.
    cbn [combine filter fst snd]. rewrite py_min_Qcmin.
    destruct (negb (Qc_eq_bool (Qcmin l p) 0));
      cbn [map fold_right fst snd]; ring.
Qed.

Lemma custom_loop_equal_length (labels prediction : list Qc) :
  length labels = length prediction ->
  custom_loop labels prediction (seq 0 (length labels)) 0
  = Returned (sum_relative_error labels prediction).
Proof.
  intros H.
  pose proof (custom_loop_sum labels prediction [] [] 0 eq_refl H) as E.
  cbn [app length] in E. rewrite E.
  now rewrite Qcplus_0_l.
Qed.

Lemma sign_loop_returns (labels prediction : list Qc) :
  forall pre_l pre_p correct_signs,
    length pre_l = length pre_p ->
    length labels = length prediction ->
    exists c,
      sign_loop (pre_l ++ labels) (pre_p ++ prediction)
                (seq (length pre_l) (length labels)) correct_signs
      = Returned c.
Proof.
  revert prediction.
  induction labels as [| l labels IH]; intros [| p prediction] pre_l pre_p c Hpre Hlen;
    try discriminate.
  - now exists c.
  - cbn [length seq sign_loop].
    rewrite py_index_middle, Hpre, py_index_middle. cbn [bind].
    destruct (snoc_step pre_l l labels) as [-> Hl].
    destruct (snoc_step pre_p p prediction) as [-> Hp].
    rewrite <- Hpre, <- Hl.
    apply IH; [congruence | now injection Hlen].
Qed.

(** Neither loop divides: the only exception out of them is the
    [IndexError] of a prediction vector that is too short. *)
Lemma sign_loop_raises labels prediction range correct_signs e :
  sign_loop labels prediction range correct_signs = Raised e -> e = IndexError.
Proof.
  revert correct_signs. induction range as [| i range IH]; intros c H;
    cbn [sign_loop] in H; [discriminate |].
  unfold py_index, bind in H.
  destruct (nth_error labels i); [| congruence].
  destruct (nth_error prediction i); [| congruence].
  now apply IH in H.
Qed.

Lemma custom_loop_raises labels prediction range total e :
  custom_loop labels prediction range total = Raised e -> e = IndexError.
Proof.
  revert total. induction range as [| i range IH]; intros c H;
    cbn [custom_loop] in H; [discriminate |].
  unfold py_index, bind in H.
  destruct (nth_error prediction i); [| congruence].
  destruct (nth_error labels i); [| congruence].
  now apply IH in H.
Qed.

(** ** R2 *)




(** The degenerate case of the specification. *)
Example R2_all_half :
  R2 [half; half] [half; half] = Raised ZeroDivisionError.
Proof. reflexivity. Qed.

(** The fixed baseline is not the textbook formula. *)
Example R2_is_not_textbook :
  let labels := [Qc_of_Z 1; Qc_of_Z 1; Qc_of_Z 0] in
  let prediction := [Qc_of_Z 1; Qc_of_Z 1; Qc_of_Z 1] in
  R2 labels prediction = Returned (Q2Qc (-1 # 3)) /\
  textbook_R2 labels prediction = Q2Qc (-1 # 2).
Proof.
  split.
  - cbv zeta. unfold R2.
    rewrite R2_loop_equal_length by reflexivity. cbn [bind fst snd].
    rewrite py_div_nonzero.
    + cbn [bind]. apply f_equal. now apply Qc_is_canon.
    + intros H. apply (f_equal this) in H. discriminate H.
  - now apply Qc_is_canon.
Qed.

(** ** custom_accuracy *)

(** C7. For non-empty vectors of one length, [custom_accuracy] is the
    sum, over the positions whose minimum of label and prediction is
    not zero, of |label - prediction| / min(label, prediction), divided
    by the full length of the vectors: a position with a zero minimum
    adds nothing to the sum and still counts in the divisor. *)
Theorem custom_accuracy_full_length (labels prediction : list Qc) :
  length labels = length prediction ->
  labels <> [] ->
  custom_accuracy labels prediction
  = Returned (sum_relative_error labels prediction / Qc_of_nat (length labels)).
Proof.
  intros Hlen Hne. unfold custom_accuracy.
  rewrite (custom_loop_equal_length _ _ Hlen). cbn [bind].
  apply py_div_nonzero. rewrite Qc_of_nat_zero.
  destruct labels; [congruence | discriminate].
Qed.

Lemma custom_accuracy_full_length_witness :
  custom_accuracy sample_labels sample_prediction
  = Returned (sum_relative_error sample_labels sample_prediction
              / Qc_of_nat (length sample_labels)).
Proof.
  apply (custom_accuracy_full_length sample_labels sample_prediction eq_refl).
  discriminate.
Defined.

(** Of three positions one has a zero minimum; the other two add 1 and
    0; the result is 1/3, not 1/2. *)
Example custom_accuracy_sample :
  custom_accuracy sample_labels sample_prediction = Returned (Q2Qc (1 # 3)).
Proof.
  unfold custom_accuracy.
  rewrite custom_loop_equal_length by reflexivity. cbn [bind].
  rewrite py_div_nonzero.
  - apply f_equal. now apply Qc_is_canon.
  - intros H. apply (f_equal this) in H. discriminate H.
Qed.

(** ** Division by the length *)

(** C10. [sign_accuracy] and [custom_accuracy] divide by the length of
    the labels whatever the vectors hold: the division by zero is
    reached exactly when the labels are empty, and for non-empty
    vectors of one length both return the total of their loop divided
    by that length. *)
Theorem accuracies_divide_by_length (labels prediction : list Qc) :
  (sign_accuracy labels prediction = Raised ZeroDivisionError <-> labels = []) /\
  (custom_accuracy labels prediction = Raised ZeroDivisionError <-> labels = []) /\
  (length labels = length prediction -> labels <> [] ->
   (exists correct_signs,
       sign_loop labels prediction (seq 0 (length labels)) 0
       = Returned correct_signs /\
       sign_accuracy labels prediction
       = Returned (correct_signs / Qc_of_nat (length labels))) /\
   (exists total,
       custom_loop labels prediction (seq 0 (length labels)) 0 = Returned total /\
       custom_accuracy labels prediction
       = Returned (total / Qc_of_nat (length labels)))).
Proof.
  assert (Hlen0 : Qc_of_nat (length labels) = 0 <-> labels = []).
  { rewrite Qc_of_nat_zero. destruct labels; [now split | split; discriminate]. }
  split; [| split].
  - unfold sign_accuracy.
    destruct (sign_loop labels prediction _ 0) as [c | e] eqn:Hloop; cbn [bind].
    + now rewrite py_div_raises.
    + pose proof (sign_loop_raises _ _ _ _ _ Hloop) as ->.
      split; [discriminate |]. intros ->. discriminate Hloop.
  - unfold custom_accuracy.
    destruct (custom_loop labels prediction _ 0) as [c | e] eqn:Hloop; cbn [bind].
    + now rewrite py_div_raises.
    + pose proof (custom_loop_raises _ _ _ _ _ Hloop) as ->.
      split; [discriminate |]. intros ->. discriminate Hloop.
  - intros Hlen Hne.
    assert (Hnz : Qc_of_nat (length labels) <> 0) by now rewrite Hlen0.
    split.
    + destruct (sign_loop_returns labels prediction [] [] 0 eq_refl Hlen)
        as [c Hc]. cbn [app length] in Hc.
      exists c. split; [assumption |].
      unfold sign_accuracy. rewrite Hc. cbn [bind]. now apply py_div_nonzero.
    + exists (sum_relative_error labels prediction).
      split; [now apply custom_loop_equal_length |].
      unfold custom_accuracy. rewrite custom_loop_equal_length by assumption.
      cbn [bind]. now apply py_div_nonzero.
Qed.

Lemma accuracies_divide_by_length_witness :
  sign_accuracy [] [] = Raised ZeroDivisionError /\
  (exists correct_signs,
      sign_loop sample_labels sample_prediction
        (seq 0 (length sample_labels)) 0
      = Returned correct_signs /\
      sign_accuracy sample_labels sample_prediction
      = Returned (correct_signs / Qc_of_nat (length sample_labels))) /\
  (exists total,
      custom_loop sample_labels sample_prediction
        (seq 0 (length sample_labels)) 0
      = Returned total /\
      custom_accuracy sample_labels sample_prediction
      = Returned (total / Qc_of_nat (length sample_labels))).
Proof.
  split.
  - apply (proj1 (accuracies_divide_by_length [] [])). reflexivity.
  - apply (proj2 (proj2 (accuracies_divide_by_length sample_labels
                           sample_prediction)) eq_refl).
    discriminate.
Defined.

(** * Further properties of the labeler *)

Local Close Scope Qc_scope.

Lemma labelled_single_rows ticks i dates rows k :
  labelled ticks i dates rows k -> Forall (fun row => length row = 1%nat) rows.
Proof. induction 1; constructor; [reflexivity | assumption]. Qed.

(** In boolean mode the dates that come back are a prefix of the input
    dates, there is exactly one label row per returned date, and every
    row holds a single label. *)
Theorem generateLabels_boolean_prefix {Target : Type} (dates : list Date)
    (aux : list Target) (ticks : list Tick) labels dates' :
  generateLabels dates aux ticks "boolean" = Returned (Some (labels, dates')) ->
  exists rows rest,
    labels = BoolLabels rows /\
    dates = dates' ++ rest /\
    length rows = length dates' /\
    Forall (fun row => length row = 1%nat) rows.
Proof.
  intros H.
  apply generateLabels_boolean_shape in H as (rows & k & -> & Hdates & Hlab).
  exists rows, (skipn (length rows) dates).
  split; [reflexivity |]. split; [| split].
  - rewrite Hdates. symmetry. apply firstn_skipn.
  - now apply labelled_length in Hlab.
  - now apply labelled_single_rows in Hlab.
Qed.

Lemma generateLabels_boolean_prefix_witness :
  exists rows rest,
    BoolLabels (Target := Qc) [[true]; [false]; [false]] = BoolLabels rows /\
    [1; 2; 3; 4] = [1; 2; 3] ++ rest /\
    length rows = length [1; 2; 3] /\
    Forall (fun row => length row = 1%nat) rows.
Proof.
  apply (generateLabels_boolean_prefix (Target := Qc) [1; 2; 3; 4] []
           sample_ticks _ _ eq_refl).
Defined.

Lemma generateLabels_boolean_returns_witness :
  exists rows dates',
    generateLabels (Target := Qc) [1; 2; 2; 4] [] sample_ticks "boolean"
    = Returned (Some (BoolLabels rows, dates')).
Proof.
  apply (generateLabels_boolean_returns (Target := Qc) [1; 2; 2; 4] []
           sample_ticks).
  cbn. repeat constructor.
Defined.

Lemma generateLabels_boolean_forward_witness :
  exists k,
    [1; 2; 3] = firstn (length [[true]; [false]; [false]]) [1; 2; 3; 4] /\
    labelled sample_ticks 0 [1; 2; 3] [[true]; [false]; [false]] k.
Proof.
  apply (generateLabels_boolean_forward (Target := Qc) [1; 2; 3; 4] []
           sample_ticks _ _ eq_refl).
Defined.

(** ** Labels under a change of prices *)

Lemma advance_map_prices (f : Qc -> Qc) (rest : list Tick) (i : nat) (d : Date) :
  advance (map_prices f rest) i d = advance rest i d.
Proof.
  revert i. induction rest as [| t rest IH]; intros i; cbn.
  - reflexivity.
  - now rewrite IH.
Qed.

Lemma nth_error_map_prices (f : Qc -> Qc) (ticks : list Tick) (j : nat) :
  nth_error (map_prices f ticks) j
  = option_map (fun t => {| date := date t; closePrice := f (closePrice t) |})
               (nth_error ticks j).
Proof. unfold map_prices. apply nth_error_map. Qed.

Lemma Qcltb_monotone (f : Qc -> Qc) (x y : Qc) :
  (forall a b, (a < b)%Qc <-> (f a < f b)%Qc) ->
  Qcltb (f x) (f y) = Qcltb x y.
Proof.
  intros Hf.
  destruct (Qcltb x y) eqn:E.
  - apply Qcltb_lt, (proj1 (Hf x y)), Qcltb_lt, E.
  - destruct (Qcltb (f x) (f y)) eqn:E'; [| reflexivity].
    apply Qcltb_lt in E'. apply (proj2 (Hf x y)) in E'.
    apply Qcltb_lt in E'. congruence.
Qed.

Lemma label_loop_map_prices (f : Qc -> Qc) (ticks : list Tick) (dates : list Date) :
  (forall a b, (a < b)%Qc <-> (f a < f b)%Qc) ->
  forall i labels,
    label_loop (map_prices f ticks) dates i labels
    = label_loop ticks dates i labels.
Proof.
  intros Hf. induction dates as [| d dates IH]; intros i labels;
    cbn [label_loop]; [reflexivity |].
  unfold map_prices at 1. rewrite skipn_map. fold (map_prices f (skipn i ticks)).
  rewrite advance_map_prices.
  destruct (advance (skipn i ticks) i d) as [j |]; cbn [bind]; [| reflexivity].
  rewrite !nth_error_map_prices.
  destruct (nth_error ticks j) as [curr |]; cbn [option_map]; [| reflexivity].
  destruct (nth_error ticks (S j)) as [next |]; cbn [option_map]; [| reflexivity].
  cbn [closePrice]. rewrite (Qcltb_monotone f _ _ Hf). apply IH.
Qed.

(** The labels look only at the order of the prices: sending every
    price of the series through a strictly increasing function changes
    nothing of what [generateLabels] returns or raises. *)
Theorem generateLabels_price_order_only {Target : Type} (f : Qc -> Qc)
    (dates : list Date) (aux : list Target) (ticks : list Tick)
    (labelsType : string) :
  (forall a b, (a < b)%Qc <-> (f a < f b)%Qc) ->
  generateLabels dates aux (map_prices f ticks) labelsType
  = generateLabels dates aux ticks labelsType.
Proof.
  intros Hf. unfold generateLabels.
  now rewrite (label_loop_map_prices f ticks dates Hf).
Qed.

Lemma one_more_increasing (a b : Qc) : (a < b)%Qc <-> (one_more a < one_more b)%Qc.
Proof.
  unfold one_more. rewrite (Qclt_minus_iff a b), (Qclt_minus_iff (a + 1) (b + 1)).
  now replace (b + 1 + - (a + 1))%Qc with (b + - a)%Qc by ring.
Qed.

Lemma generateLabels_price_order_only_witness :
  generateLabels (Target := Qc) [1; 2; 3] [] (map_prices one_more sample_ticks)
    "boolean"
  = generateLabels (Target := Qc) [1; 2; 3] [] sample_ticks "boolean".
Proof.
  apply (generateLabels_price_order_only (Target := Qc) one_more [1; 2; 3] []
           sample_ticks "boolean" one_more_increasing).
Defined.

(** * Further properties of the assembler *)

Lemma mapM_app {A B : Type} (f : A -> outcome B) (l1 l2 : list A) :
  mapM f (l1 ++ l2)
  = xs <- mapM f l1 ;; ys <- mapM f l2 ;; Returned (xs ++ ys).
Proof.
  induction l1 as [| x l1 IH]; cbn [app mapM bind].
  - now destruct (mapM f l2).
  - destruct (f x); cbn [bind]; [| reflexivity].
    rewrite IH. destruct (mapM f l1); cbn [bind]; [| reflexivity].
    now destruct (mapM f l2).
Qed.

Lemma mapM_returns {A B : Type} (f : A -> outcome B) (l : list A) :
  Forall (fun x => exists y, f x = Returned y) l ->
  exists ys, mapM f l = Returned ys.
Proof.
  induction 1 as [| x l [y Hy] _ [ys IH]]; cbn [mapM].
  - now exists [].
  - rewrite Hy, IH. cbn [bind]. now exists (y :: ys).
Qed.

Lemma same_lengths_true (properties : list Frame) :
  same_lengths properties = true <->
  (forall p q, In p properties -> In q properties -> length p = length q).
Proof.
  unfold same_lengths. destruct properties as [| p0 rest]; [now split |].
  rewrite forallb_forall. split.
  - intros H p q Hp Hq.
    apply H, Nat.eqb_eq in Hp. apply H, Nat.eqb_eq in Hq. congruence.
  - intros H p Hp. apply Nat.eqb_eq. apply H; [now left | assumption].
Qed.

Section AssemblerEdges.

Context {Feature Target : Type}.
Variable unpickle : string -> outcome Value.
Implicit Types (models : list (DatasetModel Feature Target)) (store : ChunkStore).

(** A labels type other than "boolean" and "full" never yields a
    dataset: once the properties are loaded and the model has run,
    unpacking the [None] of [generateLabels] raises [TypeError]. *)
Theorem generateDataset_other_labelsType models store modelName propertyNames
    labelsType start end_ :
  labelsType <> "boolean" -> labelsType <> "full" ->
  (forall dataset labels dates,
      generateDataset unpickle models store modelName propertyNames labelsType
        start end_ <> Returned (Dataset dataset labels dates)) /\
  (forall model properties,
      select_model models modelName None = Some model ->
      mapM (load_property unpickle store
              (fst (getMasterInterval store propertyNames start end_))
              (snd (getMasterInterval store propertyNames start end_)))
           propertyNames = Returned properties ->
      same_lengths properties = true ->
      generateDataset unpickle models store modelName propertyNames labelsType
        start end_ = Raised TypeError).
Proof.
  intros Hb Hf.
  assert (Hlab : forall dates (aux : list Target) ticks,
             generateLabels dates aux ticks labelsType = Returned None).
  { intros. unfold generateLabels.
    now rewrite (proj2 (String.eqb_neq _ _) Hb), (proj2 (String.eqb_neq _ _) Hf). }
  split.
  - intros dataset labels dates. unfold generateDataset.
    destruct (select_model models modelName None) as [model |]; [| discriminate].
    destruct (getMasterInterval store propertyNames start end_) as [start' end'].
    destruct (mapM _ propertyNames) as [properties |]; cbn [bind];
      [| discriminate].
    destruct (negb (same_lengths properties)); [discriminate |].
    destruct (generate model properties) as [[dataset0 dates0] aux].
    rewrite Hlab. discriminate.
  - intros model properties Hsel Hload Hsame. unfold generateDataset.
    rewrite Hsel.
    destruct (getMasterInterval store propertyNames start end_) as [start' end'].
    cbn [fst snd] in Hload. rewrite Hload. cbn [bind].
    rewrite Hsame. cbn [negb].
    destruct (generate model properties) as [[dataset0 dates0] aux].
    now rewrite Hlab.
Qed.

(** A requested property without a single row in the clipped interval
    makes [generateDataset] raise [IndexError] (from [data.iloc[0]]),
    provided the properties before it load. *)
Theorem generateDataset_empty_property models store modelName labelsType
    start end_ model start' end' before prop after :
  select_model models modelName None = Some model ->
  getMasterInterval store (before ++ prop :: after) start end_ = (start', end') ->
  Forall (fun q => exists frame,
              load_property unpickle store start' end' q = Returned frame) before ->
  loadData fst (series store prop) start' end' = [] ->
  generateDataset unpickle models store modelName (before ++ prop :: after)
    labelsType start end_ = Raised IndexError.
Proof.
  intros Hsel Hint Hbefore Hempty. unfold generateDataset.
  rewrite Hsel, Hint, mapM_app.
  destruct (mapM_returns _ _ Hbefore) as [frames ->]. cbn [bind mapM].
  unfold load_property at 1. now rewrite Hempty.
Qed.

(** When the loaded properties do not all have the same number of
    rows, [generateDataset] reports the mismatch and returns no
    dataset, whatever the model and the labels type. *)
Theorem generateDataset_length_mismatch models store modelName propertyNames
    labelsType start end_ model start' end' properties p q :
  select_model models modelName None = Some model ->
  getMasterInterval store propertyNames start end_ = (start', end') ->
  mapM (load_property unpickle store start' end') propertyNames
    = Returned properties ->
  In p properties -> In q properties -> length p <> length q ->
  generateDataset unpickle models store modelName propertyNames labelsType
    start end_ = Returned (NoDataset LengthMismatch).
Proof.
  intros Hsel Hint Hload Hp Hq Hne. unfold generateDataset.
  rewrite Hsel, Hint, Hload. cbn [bind].
  destruct (same_lengths properties) eqn:Hsame; [| reflexivity].
  rewrite same_lengths_true in Hsame. now destruct (Hne (Hsame p q Hp Hq)).
Qed.

(** The features and the dates of a returned dataset are prefixes of
    what a registered model of the requested name generated: rows are
    only ever dropped from the end, never reordered or added. *)
Theorem generateDataset_prefix_of_model models store modelName propertyNames
    labelsType start end_ dataset labels dates :
  generateDataset unpickle models store modelName propertyNames labelsType
    start end_ = Returned (Dataset dataset labels dates) ->
  exists model properties rest_dataset rest_dates,
    In model models /\ name model = modelName /\
    fst (fst (generate model properties)) = dataset ++ rest_dataset /\
    snd (fst (generate model properties)) = dates ++ rest_dates.
Proof.
  unfold generateDataset.
  destruct (select_model models modelName None) as [model |] eqn:Hsel;
    [| discriminate].
  apply select_model_In in Hsel as [Hin Hname].
  destruct (getMasterInterval store propertyNames start end_) as [start' end'].
  destruct (mapM _ propertyNames) as [properties |]; cbn [bind]; [| discriminate].
  destruct (negb (same_lengths properties)); [discriminate |].
  destruct (generate model properties) as [[dataset0 dates0] aux] eqn:Hgen.
  destruct (generateLabels dates0 aux _ labelsType) as [[[labels' dates'] |] |] eqn:Hlab;
    cbn [bind]; try discriminate.
  intros H. injection H as <- <- <-.
  exists model, properties. rewrite Hgen. cbn [fst snd].
  assert (Hdates : exists rest, dates0 = dates' ++ rest).
  { destruct (String.eqb_spec labelsType "boolean") as [-> | Hnb].
    - apply generateLabels_boolean_shape in Hlab as (rows & k & _ & -> & _).
      exists (skipn (length rows) dates0). symmetry. apply firstn_skipn.
    - unfold generateLabels in Hlab.
      rewrite (proj2 (String.eqb_neq _ _) Hnb) in Hlab.
      destruct (String.eqb labelsType "full"); [| discriminate].
      injection Hlab as _ <-. exists []. now rewrite app_nil_r. }
  destruct Hdates as [rest_dates Hdates].
  destruct (negb (Nat.eqb (length dataset0) (labels_len labels'))).
  - exists (skipn (labels_len labels') dataset0), rest_dates.
    rewrite py_slice_prefix, firstn_skipn. auto.
  - exists [], rest_dates. rewrite app_nil_r. auto.
Qed.

(** In full mode the labels are the targets of the model and the dates
    are its dates, untouched; the features are cut to the number of
    targets when the two numbers differ. *)
Theorem generateDataset_full_mode models store modelName propertyNames
    start end_ model start' end' properties dataset dates aux :
  select_model models modelName None = Some model ->
  getMasterInterval store propertyNames start end_ = (start', end') ->
  mapM (load_property unpickle store start' end') propertyNames
    = Returned properties ->
  same_lengths properties = true ->
  generate model properties = (dataset, dates, aux) ->
  generateDataset unpickle models store modelName propertyNames "full"
    start end_
  = Returned (Dataset (firstn (length aux) dataset) (FullLabels aux) dates).
Proof.
  intros Hsel Hint Hload Hsame Hgen. unfold generateDataset.
  rewrite Hsel, Hint, Hload. cbn [bind]. rewrite Hsame. cbn [negb].
  rewrite Hgen. cbn [generateLabels String.eqb Ascii.eqb Bool.eqb andb bind labels_len].
  destruct (Nat.eqb_spec (length dataset) (length aux)) as [Heq | Hne]; cbn [negb].
  - now rewrite <- Heq, firstn_all.
  - now rewrite py_slice_prefix.
Qed.

(** Decoding an encoded column touches the values only: a property
    that loads has the dates, and so the number of rows, of its
    series over the interval. *)
Theorem load_property_keeps_dates store start end_ prop frame :
  load_property unpickle store start end_ prop = Returned frame ->
  map fst frame = map fst (loadData fst (series store prop) start end_).
Proof.
  unfold load_property.
  set (data := loadData fst (series store prop) start end_).
  destruct (py_index data 0) as [first |]; cbn [bind]; [| discriminate].
  assert (Hdec : forall rows out,
             mapM (decode_row unpickle) rows = Returned out ->
             map fst out = map fst rows).
  { clear. induction rows as [| r rows IH]; intros out H; cbn [mapM] in H.
    - now injection H as <-.
    - unfold decode_row at 1 in H.
      destruct (snd r) as [x | s | a]; try discriminate.
      cbn [bind] in H.
      destruct (unpickle s) as [v |]; cbn [bind] in H; [| discriminate].
      destruct (mapM (decode_row unpickle) rows) as [ys |]; cbn [bind] in H;
        [| discriminate].
      injection H as <-. cbn. f_equal. now apply IH. }
  destruct (snd first); intros H;
    [now injection H as <- | now apply Hdec | now injection H as <-].
Qed.

End AssemblerEdges.

Lemma generateDataset_other_labelsType_witness :
  generateDataset no_pickle [model_a] sample_store "matrix" ["closePrice"]
    "bool" None None
  = Raised TypeError.
Proof.
  assert (Hb : "bool" <> "boolean") by discriminate.
  assert (Hf : "bool" <> "full") by discriminate.
  apply (proj2 (generateDataset_other_labelsType no_pickle [model_a]
                  sample_store "matrix" ["closePrice"] "bool" None None Hb Hf)
               model_a [sample_frame] eq_refl eq_refl eq_refl).
Defined.

Lemma generateDataset_empty_property_witness :
  generateDataset no_pickle [model_a] sample_store "matrix"
    ([] ++ "closePrice" :: ["gasPrice"]) "boolean" (Some 7) None
  = Raised IndexError.
Proof.
  apply (generateDataset_empty_property no_pickle [model_a] sample_store
           "matrix" "boolean" (Some 7) None model_a (Some 7) (Some 5)
           [] "closePrice" ["gasPrice"] eq_refl eq_refl (Forall_nil _) eq_refl).
Defined.

Lemma generateDataset_length_mismatch_witness :
  generateDataset no_pickle [model_a] uneven_store "matrix"
    ["closePrice"; "gasPrice"] "full" None None
  = Returned (NoDataset LengthMismatch).
Proof.
  apply (generateDataset_length_mismatch no_pickle [model_a] uneven_store
           "matrix" ["closePrice"; "gasPrice"] "full" None None model_a
           (Some 1) (Some 5) [sample_frame; firstn 2 sample_frame]
           sample_frame (firstn 2 sample_frame) eq_refl eq_refl eq_refl).
  - now left.
  - right. now left.
  - discriminate.
Defined.

Lemma generateDataset_prefix_of_model_witness :
  exists model properties rest_dataset rest_dates,
    In model [model_a] /\ name model = "matrix" /\
    fst (fst (generate model properties))
    = firstn 3 (map snd sample_frame) ++ rest_dataset /\
    snd (fst (generate model properties)) = [1; 2; 3] ++ rest_dates.
Proof.
  apply (generateDataset_prefix_of_model no_pickle [model_a] sample_store
           "matrix" ["closePrice"] "boolean" None None
           (firstn 3 (map snd sample_frame))
           (BoolLabels [[true]; [false]; [false]]) [1; 2; 3] eq_refl).
Defined.

Lemma generateDataset_full_mode_witness :
  generateDataset no_pickle [model_a] sample_store "matrix" ["closePrice"]
    "full" None None
  = Returned (Dataset (firstn (length (map snd sample_frame)) (map snd sample_frame))
                (FullLabels (map snd sample_frame)) [1; 2; 3; 4]).
Proof.
  apply (generateDataset_full_mode no_pickle [model_a] sample_store "matrix"
           ["closePrice"] None None model_a (Some 1) (Some 5) [sample_frame]
           (map snd sample_frame) [1; 2; 3; 4] (map snd sample_frame)
           eq_refl eq_refl eq_refl eq_refl eq_refl).
Defined.

Lemma load_property_keeps_dates_witness :
  map fst [(1, Arr []); (2, Arr [])]
  = map fst (loadData fst (series encoded_store "closePrice") (Some 1) (Some 5)).
Proof.
  apply (load_property_keeps_dates empty_array encoded_store (Some 1) (Some 5)
           "closePrice" [(1, Arr []); (2, Arr [])] eq_refl).
Defined.

(** * Further properties of the shuffle *)

Lemma take_indices_out_of_range {A : Type} (l : list A) (p : list nat) :
  Exists (fun i => (length l <= i)%nat) p ->
  take_indices l p = Raised IndexError.
Proof.
  induction 1 as [i p Hi | i p _ IH]; rewrite take_indices_cons; unfold py_index.
  - now rewrite (proj2 (nth_error_None l i) Hi).
  - destruct (nth_error l i); cbn [bind]; [| reflexivity].
    now rewrite IH.
Qed.

Lemma labels_take_length {Target : Type} (labels : Labels Target) p labels' :
  labels_take labels p = Returned labels' -> labels_len labels' = length p.
Proof.
  destruct labels as [rows | targets]; cbn [labels_take]; unfold bind.
  - destruct (take_indices rows p) as [r |] eqn:Hr; [| discriminate].
    intros H. injection H as <-. now apply take_indices_length in Hr.
  - destruct (take_indices targets p) as [r |] eqn:Hr; [| discriminate].
    intros H. injection H as <-. now apply take_indices_length in Hr.
Qed.

Lemma permutation_in_range (perm : list nat) (n : nat) :
  Permutation perm (seq 0 n) -> Forall (fun i => (i < n)%nat) perm.
Proof.
  intros H. apply Forall_forall. intros i Hi.
  apply (Permutation_in _ H), in_seq in Hi. lia.
Qed.

Lemma Forall_lt_le (perm : list nat) (n m : nat) :
  (n <= m)%nat -> Forall (fun i => (i < n)%nat) perm ->
  Forall (fun i => (i < m)%nat) perm.
Proof.
  intros Hle. apply Forall_impl. intros i Hi. lia.
Qed.

(** With containers at least as long as the labels, the shuffle
    returns the three containers read at the drawn positions. *)
Lemma randomizeDataset_returns {Feature Target : Type}
    (np_random_permutation : nat -> list nat) (dataset : list Feature)
    (labels : Labels Target) (dates : list Date) :
  (labels_len labels <= length dataset)%nat ->
  (labels_len labels <= length dates)%nat ->
  Permutation (np_random_permutation (labels_len labels))
              (seq 0 (labels_len labels)) ->
  exists sd sl sdt,
    randomizeDataset np_random_permutation dataset labels dates
    = Returned (sd, sl, sdt) /\
    take_indices dataset (np_random_permutation (labels_len labels)) = Returned sd /\
    labels_take labels (np_random_permutation (labels_len labels)) = Returned sl /\
    take_indices dates (np_random_permutation (labels_len labels)) = Returned sdt.
Proof.
  intros Hds Hdt Hperm.
  set (perm := np_random_permutation (labels_len labels)) in *.
  pose proof (permutation_in_range _ _ Hperm) as Hrange.
  destruct (take_indices_total dataset perm (Forall_lt_le _ _ _ Hds Hrange))
    as [sd Hsd].
  destruct (labels_take_total labels perm Hrange) as [sl Hsl].
  destruct (take_indices_total dates perm (Forall_lt_le _ _ _ Hdt Hrange))
    as [sdt Hsdt].
  exists sd, sl, sdt. unfold randomizeDataset. fold perm.
  now rewrite Hsd, Hsl, Hsdt.
Qed.

(** The shuffle returns three containers of the length of the labels,
    also when the features or the dates it is given are longer: their
    rows past that length are dropped. *)
Theorem randomizeDataset_lengths {Feature Target : Type}
    (np_random_permutation : nat -> list nat) (dataset : list Feature)
    (labels : Labels Target) (dates : list Date) :
  (labels_len labels <= length dataset)%nat ->
  (labels_len labels <= length dates)%nat ->
  Permutation (np_random_permutation (labels_len labels))
              (seq 0 (labels_len labels)) ->
  exists shuffled_dataset shuffled_labels shuffled_dates,
    randomizeDataset np_random_permutation dataset labels dates
    = Returned (shuffled_dataset, shuffled_labels, shuffled_dates) /\
    length shuffled_dataset = labels_len labels /\
    labels_len shuffled_labels = labels_len labels /\
    length shuffled_dates = labels_len labels.
Proof.
  intros Hds Hdt Hperm.
  destruct (randomizeDataset_returns _ _ _ _ Hds Hdt Hperm)
    as (sd & sl & sdt & Hrun & Hsd & Hsl & Hsdt).
  exists sd, sl, sdt. split; [assumption |].
  apply take_indices_length in Hsd, Hsdt. apply labels_take_length in Hsl.
  apply Permutation_length in Hperm. rewrite length_seq in Hperm.
  repeat split; congruence.
Qed.

Lemma randomizeDataset_lengths_witness :
  exists shuffled_dataset shuffled_labels shuffled_dates,
    randomizeDataset (Target := Qc) reverse_order [10; 20; 30; 40]
      (BoolLabels [[true]; [false]; [false]]) [1; 2; 3; 4]
    = Returned (shuffled_dataset, shuffled_labels, shuffled_dates) /\
    length shuffled_dataset = 3%nat /\
    labels_len shuffled_labels = 3%nat /\
    length shuffled_dates = 3%nat.
Proof.
  apply (randomizeDataset_lengths (Target := Qc) reverse_order [10; 20; 30; 40]
           (BoolLabels [[true]; [false]; [false]]) [1; 2; 3; 4]).
  - cbn. lia.
  - cbn. lia.
  - exact (Permutation_sym (Permutation_rev (seq 0 3))).
Defined.

(** With fewer features, or fewer dates, than labels, the shuffle
    raises [IndexError]: the drawn permutation holds a position that
    the short container does not have. *)
Theorem randomizeDataset_short_container {Feature Target : Type}
    (np_random_permutation : nat -> list nat) (dataset : list Feature)
    (labels : Labels Target) (dates : list Date) :
  Permutation (np_random_permutation (labels_len labels))
              (seq 0 (labels_len labels)) ->
  (length dataset < labels_len labels)%nat \/
  (length dates < labels_len labels)%nat ->
  randomizeDataset np_random_permutation dataset labels dates
  = Raised IndexError.
Proof.
  intros Hperm Hshort.
  set (perm := np_random_permutation (labels_len labels)) in *.
  assert (Hhas : forall n, (n < labels_len labels)%nat ->
                           Exists (fun i => (n <= i)%nat) perm).
  { intros n Hn. apply Exists_exists. exists n. split; [| lia].
    apply (Permutation_in _ (Permutation_sym Hperm)), in_seq. lia. }
  unfold randomizeDataset. fold perm.
  destruct (Nat.lt_ge_cases (length dataset) (labels_len labels)) as [Hds | Hds].
  - now rewrite (take_indices_out_of_range dataset perm (Hhas _ Hds)).
  - destruct Hshort as [Hlt | Hdt]; [lia |].
    pose proof (permutation_in_range _ _ Hperm) as Hrange.
    destruct (take_indices_total dataset perm (Forall_lt_le _ _ _ Hds Hrange))
      as [sd ->].
    destruct (labels_take_total labels perm Hrange) as [sl ->].
    cbn [bind].
    now rewrite (take_indices_out_of_range dates perm (Hhas _ Hdt)).
Qed.

Lemma randomizeDataset_short_container_witness :
  randomizeDataset (Target := Qc) reverse_order [10; 20]
    (BoolLabels [[true]; [false]; [false]]) [1; 2; 3]
  = Raised IndexError.
Proof.
  apply (randomizeDataset_short_container (Target := Qc) reverse_order [10; 20]
           (BoolLabels [[true]; [false]; [false]]) [1; 2; 3]
           (Permutation_sym (Permutation_rev (seq 0 3)))).
  left. cbn. lia.
Defined.

(** * Further properties of the split *)







(** ** What the last fragment receives *)








(** * Further properties of [run] *)



Section RunFacts.

Context {Feature Target : Type}.
Variable unpickle : string -> outcome Value.
Variable np_random_permutation : nat -> list nat.


End RunFacts.



(** * Further properties of the scoring functions *)

Local Open Scope Qc_scope.

Lemma Qc_of_nat_S (n : nat) : Qc_of_nat (S n) = Qc_of_nat n + 1.
Proof.
  unfold Qc_of_nat, Qcplus. apply Q2Qc_eq_iff.
  cbn [this Q2Qc]. rewrite !Qred_correct.
  unfold Qeq, inject_Z. cbn [Qplus Qnum Qden]. lia.
Qed.

Lemma Qc_of_nat_nonneg (n : nat) : 0 <= Qc_of_nat n.
Proof.
  induction n as [| n IH].
  - apply Qcle_refl.
  - rewrite Qc_of_nat_S. replace 0 with (0 + 0) by ring.
    apply Qcplus_le_compat; [assumption | discriminate].
Qed.

Lemma Qc_of_nat_pos (n : nat) : n <> 0%nat -> 0 < Qc_of_nat n.
Proof.
  intros H. destruct (Qcle_lt_or_eq _ _ (Qc_of_nat_nonneg n)) as [Hlt | Heq];
    [assumption |].
  symmetry in Heq. now apply Qc_of_nat_zero in Heq.
Qed.

Lemma Qc_of_nat_le (n m : nat) : (n <= m)%nat -> Qc_of_nat n <= Qc_of_nat m.
Proof.
  induction 1 as [| m _ IH]; [apply Qcle_refl |].
  rewrite Qc_of_nat_S. replace (Qc_of_nat n) with (Qc_of_nat n + 0) by ring.
  apply Qcplus_le_compat; [assumption | discriminate].
Qed.

Lemma Qcdiv_nonneg (x n : Qc) : 0 <= x -> 0 < n -> 0 <= x / n.
Proof.
  intros Hx Hn. apply (Qcmult_lt_0_le_reg_r _ _ n Hn).
  rewrite Qcmult_0_l, test_field; [assumption |].
  intros ->. now apply (Qclt_not_eq _ _ Hn).
Qed.

Lemma Qcdiv_le_1 (x n : Qc) : x <= n -> 0 < n -> x / n <= 1.
Proof.
  intros Hx Hn. apply (Qcmult_lt_0_le_reg_r _ _ n Hn).
  rewrite Qcmult_1_l, test_field; [assumption |].
  intros ->. now apply (Qclt_not_eq _ _ Hn).
Qed.

Lemma Qcdiv_same (x : Qc) : x <> 0 -> x / x = 1.
Proof. intros H. unfold Qcdiv. now apply Qcmult_inv_r. Qed.

Lemma Qcdiv_0_l (x : Qc) : 0 / x = 0.
Proof. unfold Qcdiv. apply Qcmult_0_l. Qed.

(** ** sign_accuracy *)

(** Over vectors of one length, [sign_loop] counts the positions on
    the same side of 1/2. *)
Lemma sign_loop_count (labels prediction : list Qc) :
  forall pre_l pre_p correct_signs,
    length pre_l = length pre_p ->
    length labels = length prediction ->
    sign_loop (pre_l ++ labels) (pre_p ++ prediction)
              (seq (length pre_l) (length labels)) correct_signs
    = Returned (correct_signs + Qc_of_nat (same_side_count labels prediction)).
Proof.
  revert prediction.
  induction labels as [| l labels IH]; intros [| p prediction] pre_l pre_p c Hpre Hlen;
    try discriminate.
  - cbn. now rewrite Qcplus_0_r.
  - cbn [length seq sign_loop].
    rewrite py_index_middle, Hpre, py_index_middle. cbn [bind].
    destruct (snoc_step pre_l l labels) as [-> Hl].
    destruct (snoc_step pre_p p prediction) as [-> Hp].
    rewrite <- Hpre, <- Hl.
    rewrite IH; [| congruence | now injection Hlen].
    apply f_equal. unfold same_side_count. cbn [combine filter fst snd].
    fold (same_side l p).
    destruct (same_side l p); [| reflexivity].
    cbn [length]. rewrite Qc_of_nat_S. ring.
Qed.

Lemma same_side_count_le (labels prediction : list Qc) :
  (same_side_count labels prediction <= length labels)%nat.
Proof.
  unfold same_side_count.
  etransitivity; [apply filter_length_le |].
  rewrite length_combine. apply Nat.le_min_l.
Qed.

Lemma sign_accuracy_value (labels prediction : list Qc) :
  length labels = length prediction ->
  labels <> [] ->
  sign_accuracy labels prediction
  = Returned (Qc_of_nat (same_side_count labels prediction)
              / Qc_of_nat (length labels)).
Proof.
  intros Hlen Hne. unfold sign_accuracy.
  pose proof (sign_loop_count labels prediction [] [] 0 eq_refl Hlen) as E.
  cbn [app length] in E. rewrite E, Qcplus_0_l. cbn [bind].
  apply py_div_nonzero. rewrite Qc_of_nat_zero.
  destruct labels; [congruence | discriminate].
Qed.

(** For non-empty vectors of one length, [sign_accuracy] is the number
    of positions at which label and prediction lie on the same side of
    1/2 (both at or above it, or both below it), divided by the
    length; so it lies between 0 and 1. *)
Theorem sign_accuracy_fraction (labels prediction : list Qc) :
  length labels = length prediction ->
  labels <> [] ->
  exists v,
    sign_accuracy labels prediction = Returned v /\
    v = Qc_of_nat (same_side_count labels prediction)
        / Qc_of_nat (length labels) /\
    0 <= v <= 1.
Proof.
  intros Hlen Hne. eexists. split; [now apply sign_accuracy_value |].
  split; [reflexivity |].
  assert (Hpos : 0 < Qc_of_nat (length labels))
    by (apply Qc_of_nat_pos; destruct labels; [congruence | discriminate]).
  split.
  - apply Qcdiv_nonneg; [apply Qc_of_nat_nonneg | assumption].
  - apply Qcdiv_le_1; [| assumption].
    apply Qc_of_nat_le, same_side_count_le.
Qed.

Lemma sign_accuracy_fraction_witness :
  exists v,
    sign_accuracy sample_labels sample_prediction = Returned v /\
    v = Qc_of_nat (same_side_count sample_labels sample_prediction)
        / Qc_of_nat (length sample_labels) /\
    0 <= v <= 1.
Proof.
  apply (sign_accuracy_fraction sample_labels sample_prediction eq_refl).
  discriminate.
Defined.

(** ** Perfect predictions and exchanged arguments *)

Lemma same_side_refl (l : Qc) : same_side l l = true.
Proof.
  unfold same_side, Qcleb. now destruct (Qcltb l half).
Qed.

Lemma same_side_sym (l p : Qc) : same_side l p = same_side p l.
Proof.
  unfold same_side.
  now rewrite (andb_comm (Qcleb half l)), (andb_comm (Qcltb l half)).
Qed.

Lemma same_side_count_refl (labels : list Qc) :
  same_side_count labels labels = length labels.
Proof.
  unfold same_side_count. induction labels as [| l labels IH]; [reflexivity |].
  cbn [combine filter fst snd]. rewrite same_side_refl. cbn [length].
  now rewrite IH.
Qed.

Lemma same_side_count_sym (labels prediction : list Qc) :
  same_side_count labels prediction = same_side_count prediction labels.
Proof.
  unfold same_side_count. revert prediction.
  induction labels as [| l labels IH]; intros [| p prediction]; try reflexivity.
  cbn [combine filter fst snd]. rewrite (same_side_sym l p).
  destruct (same_side p l); cbn [length]; now rewrite IH.
Qed.

Lemma Qcmin_comm (x y : Qc) : Qcmin x y = Qcmin y x.
Proof.
  unfold Qcmin, Qcleb.
  destruct (Qcltb y x) eqn:Hyx, (Qcltb x y) eqn:Hxy; cbn [negb]; try reflexivity.
  - apply Qcltb_lt in Hyx, Hxy.
    now destruct (Qclt_not_le _ _ Hyx (Qclt_le_weak _ _ Hxy)).
  - destruct (Qc_dec x y) as [[H | H] | H].
    + apply Qcltb_lt in H. congruence.
    + apply Qcltb_lt in H. congruence.
    + assumption.
Qed.

Lemma Qcmin_same (x : Qc) : Qcmin x x = x.
Proof. unfold Qcmin. now destruct (Qcleb x x). Qed.

Lemma sum_relative_error_sym (labels prediction : list Qc) :
  sum_relative_error labels prediction = sum_relative_error prediction labels.
Proof.
  unfold sum_relative_error, Qcsum. revert prediction.
  induction labels as [| l labels IH]; intros [| p prediction]; try reflexivity.
  cbn [combine filter fst snd]. rewrite (Qcmin_comm l p).
  destruct (negb (Qc_eq_bool (Qcmin p l) 0)); cbn [map fold_right fst snd].
  - now rewrite IH, (Qcabs_Qcminus l p), (Qcmin_comm l p).
  - apply IH.
Qed.

Lemma sum_relative_error_refl (labels : list Qc) :
  sum_relative_error labels labels = 0.
Proof.
  unfold sum_relative_error, Qcsum.
  induction labels as [| l labels IH]; [reflexivity |].
  cbn [combine filter fst snd].
  destruct (negb (Qc_eq_bool (Qcmin l l) 0)); cbn [map fold_right fst snd].
  - rewrite IH. replace (l - l) with 0 by ring.
    rewrite (Qcabs_pos 0 (Qcle_refl 0)), Qcdiv_0_l. ring.
  - exact IH.
Qed.

Lemma custom_accuracy_value (labels prediction : list Qc) :
  length labels = length prediction ->
  labels <> [] ->
  custom_accuracy labels prediction
  = Returned (sum_relative_error labels prediction / Qc_of_nat (length labels)).
Proof.
  intros Hlen Hne. unfold custom_accuracy.
  rewrite (custom_loop_equal_length _ _ Hlen). cbn [bind].
  apply py_div_nonzero. rewrite Qc_of_nat_zero.
  destruct labels; [congruence | discriminate].
Qed.

(** Predictions equal to the labels get the best of both accuracies:
    [sign_accuracy] is 1 and [custom_accuracy] is 0. *)
Theorem accuracies_of_perfect_prediction (labels : list Qc) :
  labels <> [] ->
  sign_accuracy labels labels = Returned 1 /\
  custom_accuracy labels labels = Returned 0.
Proof.
  intros Hne.
  assert (Hnz : Qc_of_nat (length labels) <> 0)
    by (rewrite Qc_of_nat_zero; destruct labels; [congruence | discriminate]).
  split.
  - rewrite sign_accuracy_value by (reflexivity || assumption).
    now rewrite same_side_count_refl, Qcdiv_same.
  - rewrite custom_accuracy_value by (reflexivity || assumption).
    now rewrite sum_relative_error_refl, Qcdiv_0_l.
Qed.

Lemma accuracies_of_perfect_prediction_witness :
  sign_accuracy sample_labels sample_labels = Returned 1 /\
  custom_accuracy sample_labels sample_labels = Returned 0.
Proof.
  apply (accuracies_of_perfect_prediction sample_labels). discriminate.
Defined.

(** Both accuracies treat their two arguments alike: for vectors of one
    length, exchanging labels and predictions changes neither
    result. *)
Theorem accuracies_symmetric (labels prediction : list Qc) :
  length labels = length prediction ->
  sign_accuracy labels prediction = sign_accuracy prediction labels /\
  custom_accuracy labels prediction = custom_accuracy prediction labels.
Proof.
  intros Hlen.
  destruct labels as [| l labels].
  - destruct prediction; [now split | discriminate].
  - destruct prediction as [| p prediction]; [discriminate |].
    split.
    + rewrite !sign_accuracy_value by (congruence || discriminate).
      now rewrite same_side_count_sym, Hlen.
    + rewrite !custom_accuracy_value by (congruence || discriminate).
      now rewrite sum_relative_error_sym, Hlen.
Qed.

Lemma accuracies_symmetric_witness :
  sign_accuracy sample_labels sample_prediction
  = sign_accuracy sample_prediction sample_labels /\
  custom_accuracy sample_labels sample_prediction
  = custom_accuracy sample_prediction sample_labels.
Proof.
  apply (accuracies_symmetric sample_labels sample_prediction eq_refl).
Defined.

(** ** R2 *)









(** ** Vectors of different lengths *)

Lemma sign_loop_short (labels prediction : list Qc) :
  forall pre_l pre_p correct_signs,
    length pre_l = length pre_p ->
    (length prediction < length labels)%nat ->
    sign_loop (pre_l ++ labels) (pre_p ++ prediction)
              (seq (length pre_l) (length labels)) correct_signs
    = Raised IndexError.
Proof.
  revert prediction.
  induction labels as [| l labels IH]; intros prediction pre_l pre_p c Hpre Hlen;
    [cbn in Hlen; lia |].
  cbn [length seq sign_loop]. rewrite py_index_middle. cbn [bind].
  destruct prediction as [| p prediction].
  - unfold py_index. rewrite app_nil_r, Hpre.
    now rewrite (proj2 (nth_error_None pre_p (length pre_p)) (Nat.le_refl _)).
  - rewrite Hpre, py_index_middle. cbn [bind].
    destruct (snoc_step pre_l l labels) as [-> Hl].
    destruct (snoc_step pre_p p prediction) as [-> Hp].
    rewrite <- Hpre, <- Hl.
    apply IH; [congruence | cbn in Hlen; lia].
Qed.

Lemma custom_loop_short (labels prediction : list Qc) :
  forall pre_l pre_p total,
    length pre_l = length pre_p ->
    (length prediction < length labels)%nat ->
    custom_loop (pre_l ++ labels) (pre_p ++ prediction)
                (seq (length pre_l) (length labels)) total
    = Raised IndexError.
Proof.
  revert prediction.
  induction labels as [| l labels IH]; intros prediction pre_l pre_p c Hpre Hlen;
    [cbn in Hlen; lia |].
  cbn [length seq custom_loop].
  destruct prediction as [| p prediction].
  - unfold py_index at 1. rewrite app_nil_r, Hpre.
    now rewrite (proj2 (nth_error_None pre_p (length pre_p)) (Nat.le_refl _)).
  - rewrite Hpre, py_index_middle, <- Hpre, py_index_middle. cbn [bind].
    destruct (snoc_step pre_l l labels) as [-> Hl].
    destruct (snoc_step pre_p p prediction) as [-> Hp].
    rewrite <- Hl.
    apply IH; [congruence | cbn in Hlen; lia].
Qed.

Lemma R2_loop_short (labels prediction : list Qc) :
  forall pre_l pre_p sumOfErrors nullModel,
    length pre_l = length pre_p ->
    (length prediction < length labels)%nat ->
    R2_loop (pre_l ++ labels) (pre_p ++ prediction)
            (seq (length pre_l) (length labels)) sumOfErrors nullModel
    = Raised IndexError.
Proof.
  revert prediction.
  induction labels as [| l labels IH]; intros prediction pre_l pre_p se nm Hpre Hlen;
    [cbn in Hlen; lia |].
  cbn [length seq R2_loop]. rewrite py_index_middle. cbn [bind].
  destruct prediction as [| p prediction].
  - unfold py_index. rewrite app_nil_r, Hpre.
    now rewrite (proj2 (nth_error_None pre_p (length pre_p)) (Nat.le_refl _)).
  - rewrite Hpre, py_index_middle. cbn [bind].
    destruct (snoc_step pre_l l labels) as [-> Hl].
    destruct (snoc_step pre_p p prediction) as [-> Hp].
    rewrite <- Hpre, <- Hl.
    apply IH; [congruence | cbn in Hlen; lia].
Qed.

(** With fewer predictions than labels, the three scores raise
    [IndexError]: their loops run over the positions of the labels and
    read the prediction at each. *)
Theorem scores_short_prediction (labels prediction : list Qc) :
  (length prediction < length labels)%nat ->
  sign_accuracy labels prediction = Raised IndexError /\
  custom_accuracy labels prediction = Raised IndexError /\
  R2 labels prediction = Raised IndexError.
Proof.
  intros Hlen. split; [| split].
  - unfold sign_accuracy.
    pose proof (sign_loop_short labels prediction [] [] 0 eq_refl Hlen) as E.
    cbn [app length] in E. now rewrite E.
  - unfold custom_accuracy.
    pose proof (custom_loop_short labels prediction [] [] 0 eq_refl Hlen) as E.
    cbn [app length] in E. now rewrite E.
  - unfold R2.
    pose proof (R2_loop_short labels prediction [] [] 0 0 eq_refl Hlen) as E.
    cbn [app length] in E. now rewrite E.
Qed.

Lemma scores_short_prediction_witness :
  sign_accuracy sample_labels [half] = Raised IndexError /\
  custom_accuracy sample_labels [half] = Raised IndexError /\
  R2 sample_labels [half] = Raised IndexError.
Proof.
  apply (scores_short_prediction sample_labels [half]). cbn. lia.
Defined.

Lemma py_index_agree {A : Type} (l l' : list A) (i : nat) :
  nth_error l i = nth_error l' i -> py_index l i = py_index l' i.
Proof. unfold py_index. now intros ->. Qed.

Lemma sign_loop_agree labels prediction prediction' range :
  (forall i, In i range -> nth_error prediction i = nth_error prediction' i) ->
  forall c, sign_loop labels prediction range c
            = sign_loop labels prediction' range c.
Proof.
  induction range as [| i range IH]; intros H c; cbn [sign_loop]; [reflexivity |].
  rewrite (py_index_agree prediction prediction' i) by (apply H; now left).
  destruct (py_index labels i); cbn [bind]; [| reflexivity].
  destruct (py_index prediction' i); cbn [bind]; [| reflexivity].
  apply IH. intros j Hj. apply H. now right.
Qed.

Lemma custom_loop_agree labels prediction prediction' range :
  (forall i, In i range -> nth_error prediction i = nth_error prediction' i) ->
  forall c, custom_loop labels prediction range c
            = custom_loop labels prediction' range c.
Proof.
  induction range as [| i range IH]; intros H c; cbn [custom_loop]; [reflexivity |].
  rewrite (py_index_agree prediction prediction' i) by (apply H; now left).
  destruct (py_index prediction' i); cbn [bind]; [| reflexivity].
  destruct (py_index labels i); cbn [bind]; [| reflexivity].
  apply IH. intros j Hj. apply H. now right.
Qed.

Lemma R2_loop_agree labels prediction prediction' range :
  (forall i, In i range -> nth_error prediction i = nth_error prediction' i) ->
  forall se nm, R2_loop labels prediction range se nm
                = R2_loop labels prediction' range se nm.
Proof.
  induction range as [| i range IH]; intros H se nm; cbn [R2_loop]; [reflexivity |].
  rewrite (py_index_agree prediction prediction' i) by (apply H; now left).
  destruct (py_index labels i); cbn [bind]; [| reflexivity].
  destruct (py_index prediction' i); cbn [bind]; [| reflexivity].
  apply IH. intros j Hj. apply H. now right.
Qed.

(** Predictions past the length of the labels are never read: the
    three scores of a longer prediction vector are those of its first
    [len(labels)] entries. *)
Theorem scores_ignore_extra_predictions (labels prediction extra : list Qc) :
  length labels = length prediction ->
  sign_accuracy labels (prediction ++ extra) = sign_accuracy labels prediction /\
  custom_accuracy labels (prediction ++ extra) = custom_accuracy labels prediction /\
  R2 labels (prediction ++ extra) = R2 labels prediction.
Proof.
  intros Hlen.
  assert (H : forall i, In i (seq 0 (length labels)) ->
                        nth_error (prediction ++ extra) i = nth_error prediction i).
  { intros i Hi. apply in_seq in Hi. apply nth_error_app1. lia. }
  unfold sign_accuracy, custom_accuracy, R2.
  now rewrite (sign_loop_agree _ _ _ _ H), (custom_loop_agree _ _ _ _ H),
    (R2_loop_agree _ _ _ _ H).
Qed.

Lemma scores_ignore_extra_predictions_witness :
  sign_accuracy sample_labels (sample_prediction ++ [half; half])
  = sign_accuracy sample_labels sample_prediction /\
  custom_accuracy sample_labels (sample_prediction ++ [half; half])
  = custom_accuracy sample_labels sample_prediction /\
  R2 sample_labels (sample_prediction ++ [half; half])
  = R2 sample_labels sample_prediction.
Proof.
  apply (scores_ignore_extra_predictions sample_labels sample_prediction
           [half; half] eq_refl).
Defined.
